(** * Dark Reader colour tinting ("Boosts"): the tint blender, the colour
      pipeline around it and the popup's filter settings

    The development embeds the code that the repository documents:

    - [applyTint], in the two versions the repository prints
      (COLOR_TINTING_TECHNICAL_GUIDE.md, lines 31-62, and
      BOOSTS_FEATURE_IMPLEMENTATION.md, lines 59-79);
    - [modifyColorWithCache] (COLOR_TINTING_TECHNICAL_GUIDE.md, lines 84-99
      and 117-127);
    - the [FilterSettings] component of the popup (its [UpDown] controls and
      [setConfig]).

    JavaScript numbers are embedded as exact rationals ([Qc], canonical
    fractions, so that equality of colours is Leibniz equality); the rounding
    of IEEE doubles is not part of the model. *)

From Stdlib Require Import ZArith QArith Qcanon Lqa Lia.
From stdpp Require Import base strings gmap pretty.

Local Open Scope Qc_scope.

(** ** JavaScript primitives used by the code *)

Module JS.

Abbreviation number := Qc.

(** An integer literal and a decimal literal [p/q]. *)
Definition num (z : Z) : number := Q2Qc (inject_Z z).
Definition frac (p : Z) (q : positive) : number := Q2Qc (p # q).

(** [x < y], [x <= y] and [x > y] as the boolean tests of an [if]. *)
Definition ltb (x y : number) : bool :=
  match x ?= y with Lt => true | _ => false end.
Definition leb (x y : number) : bool :=
  match x ?= y with Gt => false | _ => true end.
Definition gtb (x y : number) : bool := ltb y x.

(** [Math.min] and [Math.max] on two arguments. *)
Definition Math_min (x y : number) : number := if ltb y x then y else x.
Definition Math_max (x y : number) : number := if ltb x y then y else x.

(** Truncation toward zero and the remainder operator [a % b], whose
    result has the sign of the dividend [a]. *)
Definition trunc (x : number) : Z := Z.quot (Qnum x) (Zpos (Qden x)).
Definition rem (a b : number) : number := a - b * num (trunc (a / b)).

(** Truthiness of a string ([!str] is true exactly for the empty string). *)
Definition truthy (str : string) : bool :=
  match str with EmptyString => false | String _ _ => true end.

End JS.

Import JS.

(** ** Colours *)

Record HSLA : Type := mkHSLA { h : number; s : number; l : number; a : number }.

(** Modelled from the spec: [clamp] comes from the project's math utilities,
    which the repository only calls.  The specification has saturation and
    lightness clamped "back into [0,1]" (section 4.2): the value itself
    inside the bounds, the nearer bound outside,
    [Math.min(max, Math.max(min, x))]. *)
Definition clamp (x lo hi : number) : number := Math_min hi (Math_max lo x).

(** ** [applyTint], as printed in COLOR_TINTING_TECHNICAL_GUIDE.md *)

Module TintingGuide.
Section WithParser.

(** The colour normalizer: the code calls it on the tint colour and reads
    [.h], [.s] and [.l] of the result at once. *)
Variable parseToHSLWithCache : string -> HSLA.

Definition applyTint (hsl : HSLA) (tintColor : string) (tintStrength : number)
  : HSLA :=
  if negb (truthy tintColor) || leb tintStrength 0 then hsl
  else
    let tintRGB := parseToHSLWithCache tintColor in
    let strength := Math_min (num 100) (Math_max 0 tintStrength) / num 100 in
    let hueDiff := h tintRGB - h hsl in
    let hueDiff := if gtb hueDiff (num 180) then hueDiff - num 360 else hueDiff in
    let hueDiff := if ltb hueDiff (num (-180)) then hueDiff + num 360 else hueDiff in
    let newHue := rem (h hsl + hueDiff * strength * frac 6 10) (num 360) in
    let satDiff := s tintRGB - s hsl in
    let newSat := s hsl + satDiff * strength * frac 5 10 in
    let lightDiff := l tintRGB - l hsl in
    let newLight := l hsl + lightDiff * strength * frac 2 10 in
    {| h := newHue;
       s := clamp newSat 0 1;
       l := clamp newLight 0 1;
       a := a hsl |}.

End WithParser.
End TintingGuide.

(** ** [applyTint], as printed in BOOSTS_FEATURE_IMPLEMENTATION.md *)

Module BoostsDoc.
Section WithParser.

Variable parseToHSLWithCache : string -> HSLA.

Definition applyTint (hsl : HSLA) (tintColor : string) (tintStrength : number)
  : HSLA :=
  let tintRGB := parseToHSLWithCache tintColor in
  let strength := Math_min (num 100) (Math_max 0 tintStrength) / num 100 in
  let hueDiff := h tintRGB - h hsl in
  let hueDiff :=
    if gtb hueDiff (num 180) then hueDiff - num 360
    else if ltb hueDiff (num (-180)) then hueDiff + num 360
    else hueDiff in
  let newHue := rem (h hsl + hueDiff * strength * frac 6 10) (num 360) in
  let newSaturation := s hsl + (s tintRGB - s hsl) * strength * frac 5 10 in
  let newLightness := l hsl + (l tintRGB - l hsl) * strength * frac 2 10 in
  {| h := newHue; s := newSaturation; l := newLightness; a := a hsl |}.

End WithParser.
End BoostsDoc.

(** ** The blend the specification describes (section 4.3) *)

Module TintSpec.

(** Signed shortest angular difference from [colorHue] to [tintHue]. *)
Definition shortest_arc (colorHue tintHue : number) : number :=
  let d := tintHue - colorHue in
  if gtb d (num 180) then d - num 360
  else if ltb d (num (-180)) then d + num 360
  else d.

(** The largest integer not above [x]. *)
Definition floor (x : number) : Z := (Qnum x / Zpos (Qden x))%Z.

(** [x mod m]: the representative of [x] in [0,m) for a positive [m], the
    range section 4.1 gives for hues. *)
Definition modulo (x m : number) : number := x - m * num (floor (x / m)).

(** The blended colour for a strength [tintStrength] in [0,100]. *)
Definition blend (color tint : HSLA) (tintStrength : number) : HSLA :=
  let k := tintStrength / num 100 in
  let d := shortest_arc (h color) (h tint) in
  {| h := modulo (h color + d * k * frac 6 10) (num 360);
     s := s color + (s tint - s color) * k * frac 5 10;
     l := l color + (l tint - l color) * k * frac 2 10;
     a := a color |}.

End TintSpec.

(** A parser for a handful of colour strings, to run the code on. *)
Definition sample_parse (str : string) : HSLA :=
  if String.eqb str "hsl(10, 100%, 50%)" then mkHSLA (num 10) 1 (frac 1 2) 1
  else if String.eqb str "hsl(350, 100%, 50%)" then mkHSLA (num 350) 1 (frac 1 2) 1
  else if String.eqb str "#FF0000" then mkHSLA 0 1 (frac 1 2) 1
  else mkHSLA 0 0 0 1.

(** ** Canonical colours (specification, section 4.1)

    The colour normalizer delivers hue in [0,360) and saturation, lightness
    and alpha in [0,1]. *)

Definition unit_range (x : number) : Prop := 0 <= x /\ x <= 1.

Definition canonical_hue (x : number) : Prop := 0 <= x /\ x < num 360.

Definition canonical (c : HSLA) : Prop :=
  canonical_hue (h c) /\ unit_range (s c) /\ unit_range (l c) /\
  unit_range (a c).

(** The arc of the hue circle that goes from 350 degrees forward through
    360/0 to 10 degrees. *)
Definition on_arc_350_to_10 (x : number) : Prop :=
  (num 350 <= x /\ x < num 360) \/ (0 <= x /\ x <= num 10).

(** The strength normalisation [Math.min(100, Math.max(0, k))] of both
    versions of [applyTint]. *)
Definition clamp_strength (k : number) : number :=
  Math_min (num 100) (Math_max 0 k).

(** ** The theme

    The fields of [Theme] as the API reference lists them.  A theme given to
    [DarkReader.enable] without a tint colour has the default one, the empty
    string. *)

Inductive FilterMode : Type := FilterScheme | DarkScheme.

Record Theme : Type := mkTheme {
  mode : FilterMode;
  brightness : number;
  contrast : number;
  grayscale : number;
  sepia : number;
  tintColor : string;
  tintStrength : number;
  darkSchemeBackgroundColor : string;
  darkSchemeTextColor : string;
  lightSchemeBackgroundColor : string;
  lightSchemeTextColor : string;
  scrollbarColor : string;
  selectionColor : string;
  useFont : bool;
  fontFamily : string;
  textStroke : number;
  styleSystemControls : bool
}.

(** The theme of the guide's first example, the other fields at the values
    the API reference documents as defaults. *)
Definition warm_theme : Theme :=
  {| mode := DarkScheme; brightness := num 100; contrast := num 90;
     grayscale := 0; sepia := 0;
     tintColor := "#FF8C42"; tintStrength := num 25;
     darkSchemeBackgroundColor := "#181a1b"; darkSchemeTextColor := "#e8e6e3";
     lightSchemeBackgroundColor := "#dcdad7"; lightSchemeTextColor := "#181a1b";
     scrollbarColor := ""; selectionColor := "auto";
     useFont := false; fontFamily := ""; textStroke := 0;
     styleSystemControls := true |}.

(** ** The theme fingerprint *)

Definition FieldValue : Type := number + string + bool.

Definition VNum (x : number) : FieldValue := inl (inl x).
Definition VStr (x : string) : FieldValue := inl (inr x).
Definition VBool (x : bool) : FieldValue := inr x.

Inductive ThemeKey : Type :=
  | K_mode | K_brightness | K_contrast | K_grayscale | K_sepia
  | K_tintColor | K_tintStrength
  | K_darkSchemeBackgroundColor | K_darkSchemeTextColor
  | K_lightSchemeBackgroundColor | K_lightSchemeTextColor
  | K_scrollbarColor | K_selectionColor
  | K_useFont | K_fontFamily | K_textStroke | K_styleSystemControls.

(** [theme[key]]; the mode is the number of the API, 0 for the filter scheme
    and 1 for the dark scheme. *)
Definition theme_get (theme : Theme) (key : ThemeKey) : FieldValue :=
  match key with
  | K_mode => VNum (match mode theme with FilterScheme => 0 | DarkScheme => 1 end)
  | K_brightness => VNum (brightness theme)
  | K_contrast => VNum (contrast theme)
  | K_grayscale => VNum (grayscale theme)
  | K_sepia => VNum (sepia theme)
  | K_tintColor => VStr (tintColor theme)
  | K_tintStrength => VNum (tintStrength theme)
  | K_darkSchemeBackgroundColor => VStr (darkSchemeBackgroundColor theme)
  | K_darkSchemeTextColor => VStr (darkSchemeTextColor theme)
  | K_lightSchemeBackgroundColor => VStr (lightSchemeBackgroundColor theme)
  | K_lightSchemeTextColor => VStr (lightSchemeTextColor theme)
  | K_scrollbarColor => VStr (scrollbarColor theme)
  | K_selectionColor => VStr (selectionColor theme)
  | K_useFont => VBool (useFont theme)
  | K_fontFamily => VStr (fontFamily theme)
  | K_textStroke => VNum (textStroke theme)
  | K_styleSystemControls => VBool (styleSystemControls theme)
  end.

(** Modelled from the spec: the list of theme cache keys and the function
    that builds a cache key from them live in modify-colors.ts, which the
    repository only describes ("Added tintColor and tintStrength to the theme
    cache keys").  The specification (section 3, CacheEntry) makes the
    fingerprint a deterministic serialization of the active ThemeConfig in
    which any field change shows: the key list holds every field, and the
    fingerprint is the sequence of their values. *)
Definition themeCacheKeys : list ThemeKey :=
  [K_mode; K_brightness; K_contrast; K_grayscale; K_sepia;
   K_tintColor; K_tintStrength;
   K_darkSchemeBackgroundColor; K_darkSchemeTextColor;
   K_lightSchemeBackgroundColor; K_lightSchemeTextColor;
   K_scrollbarColor; K_selectionColor;
   K_useFont; K_fontFamily; K_textStroke; K_styleSystemControls].

Definition fingerprint (theme : Theme) : list FieldValue :=
  map (theme_get theme) themeCacheKeys.

(** ** [modifyColorWithCache]

    The stages the guide names around the tint are parameters: parsing to
    HSL, the dark mode transform ("existing color modification"), the
    conversion back to RGB, the CSS filters (brightness, contrast, sepia,
    grayscale) and the final colour string. *)

Section Pipeline.

Variable parseToHSLWithCache : string -> HSLA.
Variable applyTint : HSLA -> string -> number -> HSLA.
Variable modifyHSL : Theme -> HSLA -> HSLA.
Variable RGBA : Type.
Variable hslToRGB : HSLA -> RGBA.
Variable applyFilters : Theme -> RGBA -> RGBA.
Variable serialize : RGBA -> string.

(** [if (theme.tintColor && theme.tintStrength > 0) modified = applyTint(...)] *)
Definition tintStage (theme : Theme) (modified : HSLA) : HSLA :=
  if truthy (tintColor theme) && gtb (tintStrength theme) 0
  then applyTint modified (tintColor theme) (tintStrength theme)
  else modified.

(** The body of [modifyColorWithCache], in the order of the guide. *)
Definition modifyColor (color : string) (theme : Theme) : string :=
  let hsl := parseToHSLWithCache color in
  let modified := modifyHSL theme hsl in
  let modified := tintStage theme modified in
  let rgb := hslToRGB modified in
  let filtered := applyFilters theme rgb in
  serialize filtered.

(** Modelled from the spec: the cache around that body is not printed in
    the repository; section 4.4 gives it: look the pair of the original
    colour and the fingerprint up; on a miss run the pipeline, store and
    return. *)
Definition modifyColorWithCache
    (cache : gmap (string * list FieldValue) string)
    (color : string) (theme : Theme)
  : string * gmap (string * list FieldValue) string :=
  match cache !! (color, fingerprint theme) with
  | Some cached => (cached, cache)
  | None =>
      let result := modifyColor color theme in
      (result, <[(color, fingerprint theme) := result]> cache)
  end.

(** The caches that a run of queries builds from the empty cache. *)
Inductive reachable : gmap (string * list FieldValue) string -> Prop :=
  | reachable_empty : reachable ∅
  | reachable_query cache color theme :
      reachable cache ->
      reachable (snd (modifyColorWithCache cache color theme)).

(** Every entry of a cache holds what the pipeline computes for its colour
    under the theme of its fingerprint. *)
Definition cache_sound (cache : gmap (string * list FieldValue) string) : Prop :=
  forall color theme cached,
    cache !! (color, fingerprint theme) = Some cached ->
    cached = modifyColor color theme.

End Pipeline.

(** ** The order of stages the specification gives (section 4.4)

    Normalizer, then the whole filter pipeline, then the tint blender, then
    serialization. *)

Module PipelineSpec.

Definition transform
    (normalize : string -> HSLA)
    (filterPipeline : Theme -> HSLA -> HSLA)
    (tintBlender : Theme -> HSLA -> HSLA)
    (serialize : HSLA -> string)
    (color : string) (theme : Theme) : string :=
  serialize (tintBlender theme (filterPipeline theme (normalize color))).

(** Modelled from the spec: the filters are not in the repository; section
    4.2 describes grayscale as "a saturation reduction toward 0 proportional
    to its percentage", clamped to [0,1]. *)
Definition grayscaleFilter (theme : Theme) (c : HSLA) : HSLA :=
  {| h := h c;
     s := clamp (s c * (1 - grayscale theme / num 100)) 0 1;
     l := l c;
     a := a c |}.

(** A colour string that shows the four components as fractions. *)
Definition show_number (x : number) : string :=
  pretty (Qnum x) +:+ "/" +:+ pretty (Zpos (Qden x)).

Definition show_hsla (c : HSLA) : string :=
  "hsla(" +:+ show_number (h c) +:+ ", " +:+ show_number (s c) +:+ ", "
  +:+ show_number (l c) +:+ ", " +:+ show_number (a c) +:+ ")".

(** Stand-ins to run the pipeline on: lightness inverted around 0.5 for the
    dark mode transform (section 4.2, step 1, without the poles), and a theme
    with full grayscale and a full red tint. *)
Definition invertLightness (theme : Theme) (c : HSLA) : HSLA :=
  match mode theme with
  | DarkScheme => {| h := h c; s := s c; l := 1 - l c; a := a c |}
  | FilterScheme => c
  end.

Definition gray_red_theme : Theme :=
  {| mode := DarkScheme; brightness := num 100; contrast := num 100;
     grayscale := num 100; sepia := 0;
     tintColor := "#FF0000"; tintStrength := num 100;
     darkSchemeBackgroundColor := "#181a1b"; darkSchemeTextColor := "#e8e6e3";
     lightSchemeBackgroundColor := "#dcdad7"; lightSchemeTextColor := "#181a1b";
     scrollbarColor := ""; selectionColor := "auto";
     useFont := false; fontFamily := ""; textStroke := 0;
     styleSystemControls := true |}.

End PipelineSpec.

(** ** The popup's filter settings *)

Module UpDown.

(** The props of the [UpDown] control.  The control itself is imported
    from ui/controls. *)
Record Props : Type := mkProps {
  value : number;
  min : number;
  max : number;
  step : number;
  default : number
}.

End UpDown.

(** The partial themes that [FilterSettings] hands to [setConfig], one
    assignment per key, and the spread [{...theme, ...config}]. *)
Inductive Assignment : Type :=
  | Set_mode (v : FilterMode)
  | Set_brightness (v : number)
  | Set_contrast (v : number)
  | Set_grayscale (v : number)
  | Set_sepia (v : number)
  | Set_tintColor (v : string)
  | Set_tintStrength (v : number).

Definition assign (theme : Theme) (x : Assignment) : Theme :=
  let 'mkTheme m b c g sp tc ts dbg dtx lbg ltx sc sel uf ff tst ssc := theme in
  match x with
  | Set_mode v => mkTheme v b c g sp tc ts dbg dtx lbg ltx sc sel uf ff tst ssc
  | Set_brightness v => mkTheme m v c g sp tc ts dbg dtx lbg ltx sc sel uf ff tst ssc
  | Set_contrast v => mkTheme m b v g sp tc ts dbg dtx lbg ltx sc sel uf ff tst ssc
  | Set_grayscale v => mkTheme m b c v sp tc ts dbg dtx lbg ltx sc sel uf ff tst ssc
  | Set_sepia v => mkTheme m b c g v tc ts dbg dtx lbg ltx sc sel uf ff tst ssc
  | Set_tintColor v => mkTheme m b c g sp v ts dbg dtx lbg ltx sc sel uf ff tst ssc
  | Set_tintStrength v => mkTheme m b c g sp tc v dbg dtx lbg ltx sc sel uf ff tst ssc
  end.

Definition spread (theme : Theme) (config : list Assignment) : Theme :=
  fold_left assign config theme.

Record CustomTheme : Type := mkCustomTheme { url : list string; theme : Theme }.

(** What [setConfig] sends to the extension. *)
Inductive Action : Type :=
  | changeSettings (customThemes : list CustomTheme)
  | setTheme (config : list Assignment).

Module FilterSettings.
Section WithData.

(** [data.settings.theme], [data.settings.customThemes], [data.activeTab.url]
    and the URL matcher of utils/url. *)
Variable settings_theme : Theme.
Variable customThemes : list CustomTheme.
Variable activeTab_url : string.
Variable isURLInList : string -> list string -> bool.

Definition custom : option CustomTheme :=
  List.find (fun c => isURLInList activeTab_url (url c)) customThemes.

Definition active_theme : Theme :=
  match custom with Some c => theme c | None => settings_theme end.

(** [custom.theme = {...custom.theme, ...config}] writes into the entry that
    [find] returned, the first one that matches. *)
Fixpoint update_custom (config : list Assignment) (l : list CustomTheme)
  : list CustomTheme :=
  match l with
  | [] => []
  | c :: rest =>
      if isURLInList activeTab_url (url c)
      then mkCustomTheme (url c) (spread (theme c) config) :: rest
      else c :: update_custom config rest
  end.

Definition setConfig (config : list Assignment) : Action :=
  match custom with
  | Some _ => changeSettings (update_custom config customThemes)
  | None => setTheme config
  end.

Definition brightness_control : UpDown.Props :=
  {| UpDown.value := brightness active_theme;
     UpDown.min := num 50; UpDown.max := num 150; UpDown.step := num 5;
     UpDown.default := num 100 |}.

Definition brightness_onChange (value : number) : Action :=
  setConfig [Set_brightness value].

Definition contrast_control : UpDown.Props :=
  {| UpDown.value := contrast active_theme;
     UpDown.min := num 50; UpDown.max := num 150; UpDown.step := num 5;
     UpDown.default := num 100 |}.

Definition contrast_onChange (value : number) : Action :=
  setConfig [Set_contrast value].

End WithData.
End FilterSettings.

(** Sample data for the popup: one site with a theme of its own, and a URL
    matcher that looks the URL up in the list. *)
Definition sample_isURLInList (u : string) (l : list string) : bool :=
  existsb (String.eqb u) l.

Definition sample_customThemes : list CustomTheme :=
  [mkCustomTheme ["github.com"%string] PipelineSpec.gray_red_theme].

(** ** The custom tint algorithms of the guide

    [applyTemperatureTint] and [applySaturationBoost]
    (COLOR_TINTING_TECHNICAL_GUIDE.md, "Advanced: Custom Tint Algorithms").
    Both assign to a field of their argument and return it; the embedding
    returns the colour with that field replaced. *)

Module CustomTint.

Definition applyTemperatureTint (hsl : HSLA) (temperature : number) : HSLA :=
  let shift := temperature / num 100 in
  if gtb shift 0
  then {| h := rem (h hsl + shift * num 30) (num 360);
          s := s hsl; l := l hsl; a := a hsl |}
  else {| h := rem (h hsl - shift * num 30) (num 360);
          s := s hsl; l := l hsl; a := a hsl |}.

Definition applySaturationBoost (hsl : HSLA) (boost : number) : HSLA :=
  let factor := 1 + boost / num 100 in
  {| h := h hsl; s := Math_min 1 (s hsl * factor); l := l hsl; a := a hsl |}.

End CustomTint.

(** ** The Swift side: themes, tint presets and hex colours

    Swift's [Int] is embedded as [Z]; none of the code below can overflow. *)

Module Nook.

(** [struct DarkReaderTheme] of NookBrowserExample.swift. *)
Record DarkReaderTheme : Type := mkDarkReaderTheme {
  brightness : Z;
  contrast : Z;
  sepia : Z;
  grayscale : Z;
  mode : Z;
  tintColor : option string;
  tintStrength : Z;
  darkSchemeBackgroundColor : string;
  darkSchemeTextColor : string;
  lightSchemeBackgroundColor : string;
  lightSchemeTextColor : string
}.

(** [DarkReaderTheme()], every field at its default. *)
Definition defaultTheme : DarkReaderTheme :=
  {| brightness := 100; contrast := 90; sepia := 0; grayscale := 0; mode := 1;
     tintColor := None; tintStrength := 0;
     darkSchemeBackgroundColor := "#181a1b"; darkSchemeTextColor := "#e8e6e3";
     lightSchemeBackgroundColor := "#dcdad7"; lightSchemeTextColor := "#181a1b" |}.

(** [theme.tintColor = c; theme.tintStrength = k] *)
Definition withTint (c : option string) (k : Z) (t : DarkReaderTheme)
  : DarkReaderTheme :=
  {| brightness := brightness t; contrast := contrast t; sepia := sepia t;
     grayscale := grayscale t; mode := mode t;
     tintColor := c; tintStrength := k;
     darkSchemeBackgroundColor := darkSchemeBackgroundColor t;
     darkSchemeTextColor := darkSchemeTextColor t;
     lightSchemeBackgroundColor := lightSchemeBackgroundColor t;
     lightSchemeTextColor := lightSchemeTextColor t |}.

(** The JSON text that [toJSON] builds, as the members it writes, in order.
    Numbers are interpolated as they are and strings between quotes. *)
Inductive JSONValue : Type :=
  | JNumber (z : Z)
  | JString (str : string).

Definition toJSON (t : DarkReaderTheme) : list (string * JSONValue) :=
  let json :=
    [("brightness"%string, JNumber (brightness t));
     ("contrast"%string, JNumber (contrast t));
     ("sepia"%string, JNumber (sepia t));
     ("grayscale"%string, JNumber (grayscale t));
     ("mode"%string, JNumber (mode t));
     ("darkSchemeBackgroundColor"%string, JString (darkSchemeBackgroundColor t));
     ("darkSchemeTextColor"%string, JString (darkSchemeTextColor t));
     ("lightSchemeBackgroundColor"%string,
        JString (lightSchemeBackgroundColor t));
     ("lightSchemeTextColor"%string, JString (lightSchemeTextColor t))] in
  match tintColor t with
  | Some c =>
      if (0 <? tintStrength t)%Z
      then json ++ [("tintColor"%string, JString c);
                    ("tintStrength"%string, JNumber (tintStrength t))]
      else json
  | None => json
  end.


End Nook.

(** [class TintManager] of COLOR_TINTING_TECHNICAL_GUIDE.md, with the hour
    of the day as an argument where the code asks the calendar for it. *)

Module TintManager.

Inductive Preset : Type := warm | cool | purple | green | pink | none.


Definition config (p : Preset) : option string * Z :=
  match p with
  | warm => (Some "#FF8C42"%string, 25%Z)
  | cool => (Some "#4ECDC4"%string, 20%Z)
  | purple => (Some "#9B59B6"%string, 18%Z)
  | green => (Some "#27AE60"%string, 22%Z)
  | pink => (Some "#FF6B9D"%string, 20%Z)
  | none => (None, 0%Z)
  end.

Definition apply (p : Preset) (t : Nook.DarkReaderTheme) : Nook.DarkReaderTheme :=
  Nook.withTint (fst (config p)) (snd (config p)) t.


(** [a..<b] as a case of a [switch]. *)
Definition inRange (lo hi x : Z) : bool := ((lo <=? x) && (x <? hi))%Z.

Definition getTimeBasedTint (hour : Z) : string * Z :=
  if inRange 6 9 hour then ("#FFD700"%string, 20%Z)
  else if inRange 9 17 hour then ("#4ECDC4"%string, 15%Z)
  else if inRange 17 20 hour then ("#FF8C42"%string, 25%Z)
  else ("#9B59B6"%string, 18%Z).

(** The free function of the same guide (lines 275-290). *)
Definition getTintForTimeOfDay (hour : Z) : string * Z :=
  if inRange 6 9 hour then ("#FFD700"%string, 20%Z)
  else if inRange 9 17 hour then ("#4ECDC4"%string, 15%Z)
  else if inRange 17 20 hour then ("#FF8C42"%string, 25%Z)
  else if inRange 20 24 hour || inRange 0 6 hour then ("#9B59B6"%string, 18%Z)
  else ("#4ECDC4"%string, 20%Z).




End TintManager.

(** ** [class AdvancedDarkReaderManager] (NookBrowserExample.swift)

    The web view is the list of the scripts it was asked to evaluate, oldest
    first; the reference to it is weak and may be gone.  The user defaults
    hold the flag and, once written, the theme and the site themes (the
    encoded data, by the values they decode to). *)

Module AdvancedDarkReaderManager.

(** The two scripts the manager builds: [DarkReader.enable(<themeJSON>)],
    inside its test that [DarkReader] is defined, and [DarkReader.disable()]. *)
Inductive Script : Type :=
  | DarkReader_enable (themeJSON : list (string * Nook.JSONValue))
  | DarkReader_disable.

Record UserDefaults : Type := mkUserDefaults {
  DarkModeEnabled : bool;
  DarkReaderGlobalTheme : option Nook.DarkReaderTheme;
  DarkReaderSiteThemes : option (gmap string Nook.DarkReaderTheme)
}.

Record State : Type := mkState {
  webView : option (list Script);
  globalTheme : Nook.DarkReaderTheme;
  siteThemes : gmap string Nook.DarkReaderTheme;
  isDarkModeEnabled : bool;
  defaults : UserDefaults
}.

(** A URL, by its host; [url.host] is [nil] for a URL without one. *)
Record URL : Type := mkURL { host : option string }.

(** [webView?.evaluateJavaScript(script)] *)
Definition evaluateJavaScript (script : Script) (st : State) : State :=
  {| webView := option_map (fun log => log ++ [script]) (webView st);
     globalTheme := globalTheme st; siteThemes := siteThemes st;
     isDarkModeEnabled := isDarkModeEnabled st; defaults := defaults st |}.

Definition applyTheme (t : Nook.DarkReaderTheme) (st : State) : State :=
  evaluateJavaScript (DarkReader_enable (Nook.toJSON t)) st.

Definition saveSettings (st : State) : State :=
  {| webView := webView st; globalTheme := globalTheme st;
     siteThemes := siteThemes st; isDarkModeEnabled := isDarkModeEnabled st;
     defaults :=
       {| DarkModeEnabled := isDarkModeEnabled st;
          DarkReaderGlobalTheme := Some (globalTheme st);
          DarkReaderSiteThemes := Some (siteThemes st) |} |}.

Definition loadSettings (st : State) : State :=
  {| webView := webView st;
     globalTheme :=
       match DarkReaderGlobalTheme (defaults st) with
       | Some t => t
       | None => globalTheme st
       end;
     siteThemes :=
       match DarkReaderSiteThemes (defaults st) with
       | Some sites => sites
       | None => siteThemes st
       end;
     isDarkModeEnabled := DarkModeEnabled (defaults st);
     defaults := defaults st |}.

(** [init(webView:)] *)
Definition init (view : option (list Script)) (ud : UserDefaults) : State :=
  loadSettings
    {| webView := view; globalTheme := Nook.defaultTheme; siteThemes := ∅;
       isDarkModeEnabled := false; defaults := ud |}.

Definition setEnabled (flag : bool) (st : State) : State :=
  {| webView := webView st; globalTheme := globalTheme st;
     siteThemes := siteThemes st; isDarkModeEnabled := flag;
     defaults := defaults st |}.

Definition setGlobalTheme (t : Nook.DarkReaderTheme) (st : State) : State :=
  {| webView := webView st; globalTheme := t; siteThemes := siteThemes st;
     isDarkModeEnabled := isDarkModeEnabled st; defaults := defaults st |}.

Definition setSiteThemes (sites : gmap string Nook.DarkReaderTheme)
    (st : State) : State :=
  {| webView := webView st; globalTheme := globalTheme st; siteThemes := sites;
     isDarkModeEnabled := isDarkModeEnabled st; defaults := defaults st |}.

Definition enable (theme : option Nook.DarkReaderTheme) (st : State) : State :=
  let st := setEnabled true st in
  let st := match theme with Some t => setGlobalTheme t st | None => st end in
  let st := applyTheme (globalTheme st) st in
  saveSettings st.

Definition disable (st : State) : State :=
  let st := setEnabled false st in
  let st := evaluateJavaScript DarkReader_disable st in
  saveSettings st.

Definition updateTheme (updater : Nook.DarkReaderTheme -> Nook.DarkReaderTheme)
    (st : State) : State :=
  let st := setGlobalTheme (updater (globalTheme st)) st in
  let st := if isDarkModeEnabled st then applyTheme (globalTheme st) st else st in
  saveSettings st.

Definition setSiteTheme (theme : Nook.DarkReaderTheme) (url : URL) (st : State)
  : State :=
  match host url with
  | None => st
  | Some hostname =>
      let st := setSiteThemes (<[hostname := theme]> (siteThemes st)) st in
      let st := if isDarkModeEnabled st then applyTheme theme st else st in
      saveSettings st
  end.

Definition getSiteTheme (url : URL) (st : State) : option Nook.DarkReaderTheme :=
  match host url with
  | None => None
  | Some hostname => siteThemes st !! hostname
  end.

Definition applyCurrentSiteTheme (url : URL) (st : State) : State :=
  if isDarkModeEnabled st
  then
    let theme :=
      match getSiteTheme url st with Some t => t | None => globalTheme st end in
    applyTheme theme st
  else st.

(** The calls of the public API, and a run of them. *)
Inductive Call : Type :=
  | call_enable (theme : option Nook.DarkReaderTheme)
  | call_disable
  | call_updateTheme (updater : Nook.DarkReaderTheme -> Nook.DarkReaderTheme)
  | call_setSiteTheme (theme : Nook.DarkReaderTheme) (url : URL)
  | call_applyCurrentSiteTheme (url : URL).

Definition step (st : State) (c : Call) : State :=
  match c with
  | call_enable theme => enable theme st
  | call_disable => disable st
  | call_updateTheme updater => updateTheme updater st
  | call_setSiteTheme theme url => setSiteTheme theme url st
  | call_applyCurrentSiteTheme url => applyCurrentSiteTheme url st
  end.

Definition run (st : State) (calls : list Call) : State :=
  fold_left step calls st.

(** The user defaults hold what the manager holds. *)
Definition saved (st : State) : Prop :=
  defaults st
  = {| DarkModeEnabled := isDarkModeEnabled st;
       DarkReaderGlobalTheme := Some (globalTheme st);
       DarkReaderSiteThemes := Some (siteThemes st) |}.

(** The calls that end with [saveSettings]. *)
Definition saves (c : Call) : bool :=
  match c with
  | call_enable _ | call_disable | call_updateTheme _ => true
  | call_setSiteTheme _ url =>
      match host url with Some _ => true | None => false end
  | call_applyCurrentSiteTheme _ => false
  end.

End AdvancedDarkReaderManager.

(** ** [class DarkReaderManager] and its callers
       (NOOK_BROWSER_INTEGRATION_GUIDE.md)

    Its [Theme] is the theme above with an [enabled] flag beside it; its
    [toJSON] writes the same members. *)

Module DarkReaderManager.

Record Theme : Type := mkTheme {
  enabled : bool;
  settings : Nook.DarkReaderTheme
}.

Inductive Script : Type :=
  | DarkReader_enable (themeJSON : list (string * Nook.JSONValue))
  | DarkReader_disable.

Record SiteSettings : Type := mkSiteSettings {
  domain : string;
  site_enabled : bool;
  customTheme : option Theme
}.

Record State : Type := mkState {
  theme : Theme;
  webView : option (list Script);
  siteSettings : gmap string SiteSettings
}.

Definition evaluateJavaScript (script : Script) (st : State) : State :=
  {| theme := theme st;
     webView := option_map (fun log => log ++ [script]) (webView st);
     siteSettings := siteSettings st |}.

Definition setTheme (t : Theme) (st : State) : State :=
  {| theme := t; webView := webView st; siteSettings := siteSettings st |}.

Definition setEnabled (flag : bool) (st : State) : State :=
  setTheme {| enabled := flag; settings := settings (theme st) |} st.

Definition applyTheme (st : State) : State :=
  evaluateJavaScript (DarkReader_enable (Nook.toJSON (settings (theme st)))) st.

Definition enable (st : State) : State := applyTheme (setEnabled true st).

Definition disable (st : State) : State :=
  evaluateJavaScript DarkReader_disable (setEnabled false st).

Definition updateTheme (updates : Theme -> Theme) (st : State) : State :=
  let st := setTheme (updates (theme st)) st in
  if enabled (theme st) then applyTheme st else st.

(** [NookWebViewController.toggleDarkMode] *)
Definition toggleDarkMode (st : State) : State :=
  let st :=
    updateTheme
      (fun t => {| enabled := negb (enabled t); settings := settings t |}) st in
  if enabled (theme st) then enable st else disable st.

(** [webView(_:didFinish:)]: the theme is applied again after a navigation. *)
Definition didFinish (st : State) : State :=
  if enabled (theme st) then enable st else st.

(** The brightness slider of [DarkReaderSettingsViewController]: the slider
    hands its value over, [theme.brightness = Int(value)] cuts the fraction
    off, and [manager.enable()] follows. *)
Definition withBrightness (b : Z) (t : Theme) : Theme :=
  let x := settings t in
  {| enabled := enabled t;
     settings :=
       {| Nook.brightness := b; Nook.contrast := Nook.contrast x;
          Nook.sepia := Nook.sepia x; Nook.grayscale := Nook.grayscale x;
          Nook.mode := Nook.mode x; Nook.tintColor := Nook.tintColor x;
          Nook.tintStrength := Nook.tintStrength x;
          Nook.darkSchemeBackgroundColor := Nook.darkSchemeBackgroundColor x;
          Nook.darkSchemeTextColor := Nook.darkSchemeTextColor x;
          Nook.lightSchemeBackgroundColor := Nook.lightSchemeBackgroundColor x;
          Nook.lightSchemeTextColor := Nook.lightSchemeTextColor x |} |}.

Definition brightnessSliderChanged (value : number) (st : State) : State :=
  enable (updateTheme (withBrightness (trunc value)) st).

(** [updateBasedOnSystemAppearance], with the system's appearance as an
    argument. *)
Definition updateBasedOnSystemAppearance (isDarkMode : bool) (st : State)
  : State :=
  if isDarkMode && negb (enabled (theme st)) then enable st
  else if negb isDarkMode && enabled (theme st) then disable st
  else st.

Definition applySiteSpecificSettings (url_host : option string) (st : State)
  : State :=
  match url_host with
  | None => st
  | Some dom =>
      match siteSettings st !! dom with
      | None => st
      | Some found =>
          let st := setEnabled (site_enabled found) st in
          let st :=
            match customTheme found with
            | Some t => setTheme t st
            | None => st
            end in
          if enabled (theme st) then enable st else disable st
      end
  end.

Definition saveSiteSettings (url_host : option string) (st : State) : State :=
  match url_host with
  | None => st
  | Some dom =>
      {| theme := theme st; webView := webView st;
         siteSettings :=
           <[dom := {| domain := dom; site_enabled := enabled (theme st);
                       customTheme := Some (theme st) |}]> (siteSettings st) |}
  end.

End DarkReaderManager.

(** ** [UIColor(hexString:)] (NOOK_BROWSER_INTEGRATION_GUIDE.md)

    The components that the initializer cuts out of the scanned number,
    alpha first, by the number of characters of the trimmed string; [None]
    where the initializer returns [nil]. *)

Module UIColor.

Definition components (count : nat) (int : Z) : option (Z * Z * Z * Z) :=
  match count with
  | 3%nat =>
      Some (255, Z.shiftr int 8 * 17, Z.land (Z.shiftr int 4) 15 * 17,
            Z.land int 15 * 17)%Z
  | 6%nat =>
      Some (255, Z.shiftr int 16, Z.land (Z.shiftr int 8) 255,
            Z.land int 255)%Z
  | 8%nat =>
      Some (Z.shiftr int 24, Z.land (Z.shiftr int 16) 255,
            Z.land (Z.shiftr int 8) 255, Z.land int 255)%Z
  | _ => None
  end.

(** The number that a string of hexadecimal digits denotes, which is what
    [scanHexInt64] reads from such a string; [None] stands for the strings
    with other characters, which are not covered here. *)
Definition hexDigit (c : Ascii.ascii) : option Z :=
  let n := Z.of_N (Ascii.N_of_ascii c) in
  if ((48 <=? n) && (n <=? 57))%Z then Some (n - 48)%Z
  else if ((65 <=? n) && (n <=? 70))%Z then Some (n - 55)%Z
  else if ((97 <=? n) && (n <=? 102))%Z then Some (n - 87)%Z
  else None.

Fixpoint scanHex (acc : Z) (str : string) : option Z :=
  match str with
  | EmptyString => Some acc
  | String c rest =>
      match hexDigit c with
      | Some d => scanHex (acc * 16 + d)%Z rest
      | None => None
      end
  end.

(** The three-digit number with each digit doubled, [abc] to [aabbcc]. *)
Definition doubled (int : Z) : Z :=
  (Z.shiftr int 8 * 17 * 65536 + Z.land (Z.shiftr int 4) 15 * 17 * 256
   + Z.land int 15 * 17)%Z.

End UIColor.

(** ** The other controls of the popup

    The grayscale, sepia and tint controls of [FilterSettings] and the
    [TintColorEditor] of tint-color.tsx. *)

Module PopupControls.

(** [DEFAULT_THEME.tintColor], the empty string
    (BOOSTS_FEATURE_IMPLEMENTATION.md, "Default Values"). *)
Definition DEFAULT_THEME_tintColor : string := "".

(** [value || '#3b82f6'] *)
Definition pickerColor (value : string) : string :=
  if truthy value then value else "#3b82f6"%string.

Section WithData.

Variable settings_theme : Theme.
Variable customThemes : list CustomTheme.
Variable activeTab_url : string.
Variable isURLInList : string -> list string -> bool.

Local Abbreviation theme :=
  (FilterSettings.active_theme settings_theme customThemes activeTab_url
     isURLInList).

Local Abbreviation setConfig :=
  (FilterSettings.setConfig customThemes activeTab_url isURLInList).

Definition grayscale_control : UpDown.Props :=
  {| UpDown.value := grayscale theme;
     UpDown.min := 0; UpDown.max := num 100; UpDown.step := num 5;
     UpDown.default := 0 |}.

Definition sepia_control : UpDown.Props :=
  {| UpDown.value := sepia theme;
     UpDown.min := 0; UpDown.max := num 100; UpDown.step := num 5;
     UpDown.default := 0 |}.

Definition tintStrength_control : UpDown.Props :=
  {| UpDown.value := tintStrength theme;
     UpDown.min := 0; UpDown.max := num 100; UpDown.step := num 5;
     UpDown.default := 0 |}.

Definition tintStrength_onChange (value : number) : Action :=
  setConfig [Set_tintStrength value].

(** The colour picker of the tint colour section. *)
Definition tintColor_color : string := pickerColor (tintColor theme).

Definition tintColor_onChange (value : string) : Action :=
  setConfig [Set_tintColor value].

Definition tintColor_canReset : bool :=
  negb (String.eqb (tintColor theme) DEFAULT_THEME_tintColor).

Definition tintColor_onReset : Action :=
  setConfig [Set_tintColor DEFAULT_THEME_tintColor].

Definition mode_onChange (m : FilterMode) : Action := setConfig [Set_mode m].

End WithData.

End PopupControls.


(** * Facts about the JavaScript primitives *)

(** Inequalities of [Qc] are moved to [Q], where [lra] and [nra] work. *)
Ltac qc_to_q :=
  unfold Qcle, Qclt, Qcdiv, Qcminus, Qcinv, Qcopp, Qcplus, Qcmult, num, frac,
    Q2Qc, inject_Z in *;
  cbn [this] in *; rewrite ?Qred_correct in *;
  repeat match goal with
    | |- context [Qinv (?n # ?d)] =>
        let v := eval cbv in (Qinv (n # d)) in change (Qinv (n # d)) with v
    | H : context [Qinv (?n # ?d)] |- _ =>
        let v := eval cbv in (Qinv (n # d)) in change (Qinv (n # d)) with v in H
    end.

Lemma ltb_lt (x y : number) : ltb x y = true <-> x < y.
Proof.
  unfold ltb, Qccompare, Qclt. rewrite Qlt_alt.
  destruct (x ?= y)%Q; split; congruence.
Qed.

Lemma ltb_ge (x y : number) : ltb x y = false <-> y <= x.
Proof.
  unfold ltb, Qccompare, Qcle. rewrite Qle_alt, <- Qgt_alt, Qlt_alt.
  destruct (x ?= y)%Q; split; congruence.
Qed.

Lemma leb_le (x y : number) : leb x y = true <-> x <= y.
Proof.
  unfold leb, Qccompare, Qcle. rewrite Qle_alt.
  destruct (x ?= y)%Q; split; congruence.
Qed.

Lemma leb_gt (x y : number) : leb x y = false <-> y < x.
Proof.
  unfold leb, Qccompare, Qclt. rewrite Qgt_alt.
  destruct (x ?= y)%Q; split; congruence.
Qed.

Lemma truthy_nonempty (str : string) : truthy str = true <-> str <> ""%string.
Proof. destruct str; simpl; split; congruence. Qed.

(** Case analysis on a comparison, with the fact it decides. *)
Ltac case_ltb x y :=
  let E := fresh "E" in
  destruct (ltb x y) eqn:E;
  [apply ltb_lt in E | apply ltb_ge in E].

Lemma Math_max_spec (x y : number) :
  (x < y /\ Math_max x y = y) \/ (y <= x /\ Math_max x y = x).
Proof. unfold Math_max. case_ltb x y; auto. Qed.

Lemma Math_min_spec (x y : number) :
  (y < x /\ Math_min x y = y) \/ (x <= y /\ Math_min x y = x).
Proof. unfold Math_min. case_ltb y x; auto. Qed.

Lemma clamp_strength_range (k : number) :
  0 <= clamp_strength k /\ clamp_strength k <= num 100.
Proof.
  unfold clamp_strength.
  destruct (Math_max_spec 0 k) as [[H1 ->] | [H1 ->]];
    destruct (Math_min_spec (num 100) k) as [[H2 E] | [H2 E]];
    destruct (Math_min_spec (num 100) 0) as [[H3 E'] | [H3 E']];
    rewrite ?E, ?E'; qc_to_q; split; lra.
Qed.

Lemma Math_min_le (hi x : number) : x <= hi -> Math_min hi x = x.
Proof.
  intros H. destruct (Math_min_spec hi x) as [[_ E] | [H' E]]; rewrite E; trivial.
  now apply Qcle_antisym.
Qed.

Lemma Math_max_ge (lo x : number) : lo <= x -> Math_max lo x = x.
Proof.
  intros H. destruct (Math_max_spec lo x) as [[_ E] | [H' E]]; rewrite E; trivial.
  now apply Qcle_antisym.
Qed.

Lemma clamp_strength_id (k : number) :
  0 <= k -> k <= num 100 -> clamp_strength k = k.
Proof.
  intros H0 H100. unfold clamp_strength.
  rewrite (Math_max_ge 0 k H0). now apply Math_min_le.
Qed.

Lemma clamp_strength_idem (k : number) :
  clamp_strength (clamp_strength k) = clamp_strength k.
Proof. destruct (clamp_strength_range k). now apply clamp_strength_id. Qed.

(** The guard [tintStrength <= 0] does not tell a strength from its clamped
    value. *)
Lemma leb_clamp_strength (k : number) : leb (clamp_strength k) 0 = leb k 0.
Proof.
  destruct (leb k 0) eqn:E.
  - apply leb_le in E. apply leb_le. unfold clamp_strength.
    destruct (Math_max_spec 0 k) as [[H1 ->] | [H1 ->]].
    + exfalso. qc_to_q. lra.
    + rewrite Math_min_le; qc_to_q; lra.
  - apply leb_gt in E. apply leb_gt. unfold clamp_strength.
    rewrite Math_max_ge by (qc_to_q; lra).
    destruct (Math_min_spec (num 100) k) as [[H1 ->] | [H1 ->]]; trivial.
    qc_to_q; lra.
Qed.

Lemma clamp_unit (x : number) : 0 <= x -> x <= 1 -> clamp x 0 1 = x.
Proof.
  intros H0 H1. unfold clamp. rewrite (Math_max_ge 0 x H0). now apply Math_min_le.
Qed.

Lemma trunc_small (q : number) : - (1) < q -> q < 1 -> trunc q = 0%Z.
Proof.
  intros Hlo Hhi. qc_to_q. destruct q as [[n d] c].
  unfold trunc, Qlt in *. cbn in *.
  apply Z.quot_small_iff; lia.
Qed.

Lemma num_0 : num 0 = 0.
Proof. now apply Qc_is_canon. Qed.

(** [x % 360] is [x] for [x] strictly between [-360] and [360]. *)
Lemma rem_small (x : number) :
  num (-360) < x -> x < num 360 -> rem x (num 360) = x.
Proof.
  intros Hlo Hhi. unfold rem.
  rewrite trunc_small, num_0; [ring | |]; qc_to_q; lra.
Qed.

(** After [if (hueDiff > 180) hueDiff -= 360], the test [hueDiff < -180]
    can only succeed when the first one failed: the two consecutive [if]s of
    the guide and the [if ... else if] of the Boosts document agree. *)
Lemma hueDiff_two_ifs (d : number) :
  (let d1 := if gtb d (num 180) then d - num 360 else d in
   if ltb d1 (num (-180)) then d1 + num 360 else d1)
  = (if gtb d (num 180) then d - num 360
     else if ltb d (num (-180)) then d + num 360 else d).
Proof.
  cbv zeta. unfold gtb. case_ltb (num 180) d; trivial.
  case_ltb (d - num 360) (num (-180)); trivial.
  exfalso. qc_to_q. lra.
Qed.

Lemma HSLA_eq (c1 c2 : HSLA) :
  h c1 = h c2 -> s c1 = s c2 -> l c1 = l c2 -> a c1 = a c2 -> c1 = c2.
Proof. destruct c1, c2; simpl; intros; subst; reflexivity. Qed.

(** A blend [x + (t - x) * c * w] with [c] and [w] in [0,1] stays between
    [x] and [t], hence in [0,1] when both are. *)
Lemma blend_unit_range (x t c w : number) :
  unit_range x -> unit_range t -> unit_range c -> unit_range w ->
  unit_range (x + (t - x) * c * w).
Proof.
  unfold unit_range. intros [Hx0 Hx1] [Ht0 Ht1] [Hc0 Hc1] [Hw0 Hw1].
  assert (Hm : 0 <= c * w /\ c * w <= 1) by (qc_to_q; split; nra).
  replace (x + (t - x) * c * w) with (x + (t - x) * (c * w)) by ring.
  destruct Hm as [Hm0 Hm1]. generalize dependent (c * w). intros m Hm0 Hm1.
  qc_to_q; split; nra.
Qed.

Lemma strength_unit_range (k : number) : unit_range (clamp_strength k / num 100).
Proof.
  destruct (clamp_strength_range k) as [H0 H1].
  generalize dependent (clamp_strength k). intros c H0 H1.
  unfold unit_range. qc_to_q. split; lra.
Qed.

Lemma unit_range_frac_5_10 : unit_range (frac 5 10).
Proof. unfold unit_range. qc_to_q. split; lra. Qed.

Lemma unit_range_frac_2_10 : unit_range (frac 2 10).
Proof. unfold unit_range. qc_to_q. split; lra. Qed.

(** * The tint blender *)

(** Closed comparisons and equations between numbers, by evaluation. *)
Ltac qc_eval :=
  repeat split; try apply Qc_is_canon; vm_compute;
  first [reflexivity | discriminate].

Section TintBlender.

Variable parse : string -> HSLA.

(** The guide's version, past its guard, is the Boosts version with
    saturation and lightness clamped. *)
Lemma guide_past_guard (hsl : HSLA) (tintColor : string) (k : number) :
  truthy tintColor = true -> 0 < k ->
  TintingGuide.applyTint parse hsl tintColor k
  = (let r := BoostsDoc.applyTint parse hsl tintColor k in
     {| h := h r; s := clamp (s r) 0 1; l := clamp (l r) 0 1; a := a r |}).
Proof.
  intros Ht Hk. unfold TintingGuide.applyTint, BoostsDoc.applyTint.
  rewrite Ht. apply leb_gt in Hk. rewrite Hk. cbn [negb orb].
  cbv zeta. cbn [h s l a]. now rewrite hueDiff_two_ifs.
Qed.

Lemma boosts_unit_range (hsl : HSLA) (tintColor : string) (k : number) :
  unit_range (s hsl) -> unit_range (l hsl) ->
  unit_range (s (parse tintColor)) -> unit_range (l (parse tintColor)) ->
  unit_range (s (BoostsDoc.applyTint parse hsl tintColor k))
  /\ unit_range (l (BoostsDoc.applyTint parse hsl tintColor k)).
Proof.
  intros Hs Hl Hts Htl. unfold BoostsDoc.applyTint. cbv zeta. cbn [s l].
  change (Math_min (num 100) (Math_max 0 k)) with (clamp_strength k).
  split; apply blend_unit_range;
    auto using strength_unit_range, unit_range_frac_5_10, unit_range_frac_2_10.
Qed.

Lemma guide_at_most_0 (hsl : HSLA) (tintColor : string) (k : number) :
  k <= 0 -> TintingGuide.applyTint parse hsl tintColor k = hsl.
Proof.
  intros Hk. unfold TintingGuide.applyTint. apply leb_le in Hk. rewrite Hk.
  now rewrite orb_true_r.
Qed.

Lemma guide_empty_tint (hsl : HSLA) (k : number) :
  TintingGuide.applyTint parse hsl "" k = hsl.
Proof. reflexivity. Qed.

Lemma boosts_strength_as_clamped
    (hsl : HSLA) (tintColor : string) (k : number) :
  BoostsDoc.applyTint parse hsl tintColor k
  = BoostsDoc.applyTint parse hsl tintColor (clamp_strength k).
Proof.
  unfold BoostsDoc.applyTint. cbv zeta.
  change (Math_min (num 100) (Math_max 0 (clamp_strength k)))
    with (clamp_strength (clamp_strength k)).
  change (Math_min (num 100) (Math_max 0 k)) with (clamp_strength k).
  now rewrite clamp_strength_idem.
Qed.

(** Without a guard the Boosts version still returns the colour for a
    strength that is not positive, as long as the remainder keeps the hue. *)
Lemma boosts_at_most_0 (hsl : HSLA) (tintColor : string) (k : number) :
  k <= 0 -> num (-360) < h hsl -> h hsl < num 360 ->
  BoostsDoc.applyTint parse hsl tintColor k = hsl.
Proof.
  intros Hk Hlo Hhi.
  assert (Hc : clamp_strength k = 0).
  { destruct (clamp_strength_range k) as [Hc0 _].
    apply Qcle_antisym; trivial.
    apply leb_le. rewrite leb_clamp_strength. now apply leb_le. }
  unfold BoostsDoc.applyTint. cbv zeta.
  change (Math_min (num 100) (Math_max 0 k)) with (clamp_strength k).
  rewrite Hc. replace (0 / num 100) with 0 by (unfold Qcdiv; ring).
  apply HSLA_eq; cbn [h s l a]; try ring.
  replace (h hsl + _) with (h hsl) by ring. now apply rem_small.
Qed.

(** C1. The blend of section 4.3 takes the hue modulo 360; the code takes
    the remainder.  For a colour at hue 10, a non-empty tint at hue 350 and
    strength 100 the shortest difference is -20 and the blended angle
    10 - 12 = -2: the formula gives the hue 358, both versions of the code
    return -2, so neither returns the blend. *)
Theorem applyTint_hue_not_mod_360 (hsl : HSLA) (tintColor : string) :
  truthy tintColor = true ->
  h hsl = num 10 -> h (parse tintColor) = num 350 ->
  h (TintSpec.blend hsl (parse tintColor) (num 100)) = num 358
  /\ h (BoostsDoc.applyTint parse hsl tintColor (num 100)) = num (-2)
  /\ h (TintingGuide.applyTint parse hsl tintColor (num 100)) = num (-2)
  /\ BoostsDoc.applyTint parse hsl tintColor (num 100)
     <> TintSpec.blend hsl (parse tintColor) (num 100)
  /\ TintingGuide.applyTint parse hsl tintColor (num 100)
     <> TintSpec.blend hsl (parse tintColor) (num 100).
Proof.
  intros Ht Hc Htint.
  assert (Hs : h (TintSpec.blend hsl (parse tintColor) (num 100)) = num 358).
  { unfold TintSpec.blend. cbv zeta. cbn [h]. rewrite Hc, Htint. qc_eval. }
  assert (Hb : h (BoostsDoc.applyTint parse hsl tintColor (num 100)) = num (-2)).
  { unfold BoostsDoc.applyTint. cbv zeta. cbn [h]. rewrite Hc, Htint. qc_eval. }
  assert (Hg : h (TintingGuide.applyTint parse hsl tintColor (num 100)) = num (-2)).
  { rewrite guide_past_guard by (trivial; qc_eval). exact Hb. }
  repeat split; trivial; intros E; apply (f_equal h) in E;
    rewrite Hs in E; [rewrite Hb in E | rewrite Hg in E]; discriminate E.
Qed.

(** C2. A colour at hue 350 blended toward a tint at hue 10 with strength
    100 moves forward across 360/0: the new hue is 2, on the short arc from
    350 through 0 to 10, in both versions. *)
Theorem hue_wraps_forward (hsl : HSLA) (tintColor : string) :
  truthy tintColor = true ->
  h hsl = num 350 -> h (parse tintColor) = num 10 ->
  h (BoostsDoc.applyTint parse hsl tintColor (num 100)) = num 2
  /\ h (TintingGuide.applyTint parse hsl tintColor (num 100)) = num 2
  /\ on_arc_350_to_10 (h (BoostsDoc.applyTint parse hsl tintColor (num 100)))
  /\ on_arc_350_to_10 (h (TintingGuide.applyTint parse hsl tintColor (num 100))).
Proof.
  intros Ht Hc Htint.
  assert (Hb : h (BoostsDoc.applyTint parse hsl tintColor (num 100)) = num 2).
  { unfold BoostsDoc.applyTint. cbv zeta. cbn [h]. rewrite Hc, Htint. qc_eval. }
  assert (Hg : h (TintingGuide.applyTint parse hsl tintColor (num 100)) = num 2).
  { rewrite guide_past_guard by (trivial; qc_eval). exact Hb. }
  rewrite Hb, Hg. repeat split; trivial; right; qc_eval.
Qed.

(** C7. Both versions treat a strength as its clamped value
    min(100, max(0, k)), whatever the strength. *)
Theorem applyTint_clamps_strength
    (hsl : HSLA) (tintColor : string) (k : number) :
  TintingGuide.applyTint parse hsl tintColor k
  = TintingGuide.applyTint parse hsl tintColor (Math_min (num 100) (Math_max 0 k))
  /\ BoostsDoc.applyTint parse hsl tintColor k
     = BoostsDoc.applyTint parse hsl tintColor (Math_min (num 100) (Math_max 0 k)).
Proof.
  change (Math_min (num 100) (Math_max 0 k)) with (clamp_strength k).
  split; [| apply boosts_strength_as_clamped].
  unfold TintingGuide.applyTint. rewrite leb_clamp_strength.
  destruct (negb (truthy tintColor) || leb k 0); trivial.
  cbv zeta.
  change (Math_min (num 100) (Math_max 0 (clamp_strength k)))
    with (clamp_strength (clamp_strength k)).
  change (Math_min (num 100) (Math_max 0 k)) with (clamp_strength k).
  now rewrite clamp_strength_idem.
Qed.

(** C8. The alpha of the result is the alpha of the input colour, in both
    versions. *)
Theorem applyTint_alpha (hsl : HSLA) (tintColor : string) (k : number) :
  a (TintingGuide.applyTint parse hsl tintColor k) = a hsl
  /\ a (BoostsDoc.applyTint parse hsl tintColor k) = a hsl.
Proof.
  split; [| reflexivity].
  unfold TintingGuide.applyTint.
  now destruct (negb (truthy tintColor) || leb k 0).
Qed.

(** The two versions on colours and tints with saturation and lightness in
    [0,1]: past the guard of the guide's version its clamps change nothing,
    and at the guard the version without one returns the colour as well
    when the remainder keeps the hue. *)
Lemma guide_is_boosts (hsl : HSLA) (tint : string) (k : number) :
  unit_range (s hsl) -> unit_range (l hsl) ->
  unit_range (s (parse tint)) -> unit_range (l (parse tint)) ->
  truthy tint = true ->
  0 < k \/ (num (-360) < h hsl /\ h hsl < num 360) ->
  TintingGuide.applyTint parse hsl tint k = BoostsDoc.applyTint parse hsl tint k.
Proof.
  intros Hs Hl Hts Htl Ht Hcase.
  destruct (Qclt_le_dec 0 k) as [Hk | Hle].
  - destruct (boosts_unit_range hsl tint k Hs Hl Hts Htl) as [[? ?] [? ?]].
    rewrite guide_past_guard by assumption. cbv zeta.
    rewrite !clamp_unit by assumption.
    now destruct (BoostsDoc.applyTint parse hsl tint k).
  - destruct Hcase as [Hk | [Hlo Hhi]]; [exfalso; qc_to_q; lra |].
    rewrite guide_at_most_0 by assumption.
    symmetry. now apply boosts_at_most_0.
Qed.

(** C9. With saturation and lightness of the colour and of the tint in
    [0,1], the blended saturation and lightness lie in [0,1] for every
    strength (clamped to [0,100] as the code does), so that the clamps of the
    guide's version change nothing: the clamping version (guide) and the
    version without clamps (Boosts) return the same colour for every
    non-empty tint colour when the strength is positive or the hue of the
    colour lies strictly between -360 and 360, and they return the same
    colour in the tint step of the pipeline for every theme, hue and
    strength. *)
Theorem applyTint_clamp_noop (hsl : HSLA) (tint : string) (k : number) :
  unit_range (s hsl) -> unit_range (l hsl) ->
  unit_range (s (parse tint)) -> unit_range (l (parse tint)) ->
  unit_range (s (BoostsDoc.applyTint parse hsl tint k))
  /\ unit_range (l (BoostsDoc.applyTint parse hsl tint k))
  /\ (truthy tint = true ->
      0 < k \/ (num (-360) < h hsl /\ h hsl < num 360) ->
      TintingGuide.applyTint parse hsl tint k
      = BoostsDoc.applyTint parse hsl tint k)
  /\ (forall T : Theme,
      tintColor T = tint -> tintStrength T = k ->
      tintStage (TintingGuide.applyTint parse) T hsl
      = tintStage (BoostsDoc.applyTint parse) T hsl).
Proof.
  intros Hs Hl Hts Htl.
  destruct (boosts_unit_range hsl tint k Hs Hl Hts Htl) as [Hbs Hbl].
  split; [exact Hbs | split; [exact Hbl | split]].
  - now apply guide_is_boosts.
  - intros T HT Hk. unfold tintStage. rewrite HT, Hk.
    destruct (truthy tint) eqn:Et; cbn [andb]; trivial.
    unfold gtb. case_ltb 0 k; trivial. apply guide_is_boosts; auto.
Qed.

(** C10. A colour at hue 10 blended toward a tint at hue 350 with strength
    100 comes out with hue -2: the remainder keeps the sign of its left
    operand, and the result is outside [0,360), in both versions. *)
Theorem hue_can_be_negative (hsl : HSLA) (tintColor : string) :
  truthy tintColor = true ->
  h hsl = num 10 -> h (parse tintColor) = num 350 ->
  h (BoostsDoc.applyTint parse hsl tintColor (num 100)) = num (-2)
  /\ h (TintingGuide.applyTint parse hsl tintColor (num 100)) = num (-2)
  /\ h (BoostsDoc.applyTint parse hsl tintColor (num 100)) < 0
  /\ ~ canonical_hue (h (TintingGuide.applyTint parse hsl tintColor (num 100))).
Proof.
  intros Ht Hc Htint.
  assert (Hb : h (BoostsDoc.applyTint parse hsl tintColor (num 100)) = num (-2)).
  { unfold BoostsDoc.applyTint. cbv zeta. cbn [h]. rewrite Hc, Htint. qc_eval. }
  assert (Hg : h (TintingGuide.applyTint parse hsl tintColor (num 100)) = num (-2)).
  { rewrite guide_past_guard by (trivial; qc_eval). exact Hb. }
  rewrite Hb, Hg. repeat split; trivial; try qc_eval.
  intros [H0 _]. qc_to_q. lra.
Qed.

End TintBlender.

(** ** The blender run on sample colours *)

Lemma applyTint_hue_not_mod_360_witness :
  let c := mkHSLA (num 10) 1 (frac 1 2) 1 in
  h (TintSpec.blend c (sample_parse "hsl(350, 100%, 50%)") (num 100)) = num 358
  /\ h (BoostsDoc.applyTint sample_parse c "hsl(350, 100%, 50%)" (num 100))
     = num (-2)
  /\ h (TintingGuide.applyTint sample_parse c "hsl(350, 100%, 50%)" (num 100))
     = num (-2).
Proof.
  intros c.
  destruct (applyTint_hue_not_mod_360 sample_parse c "hsl(350, 100%, 50%)")
    as (Hs & Hb & Hg & _); [reflexivity | reflexivity | reflexivity |].
  split; [exact Hs | split; [exact Hb | exact Hg]].
Defined.

Lemma hue_wraps_forward_witness :
  let c := mkHSLA (num 350) 1 (frac 1 2) 1 in
  h (BoostsDoc.applyTint sample_parse c "hsl(10, 100%, 50%)" (num 100)) = num 2
  /\ h (TintingGuide.applyTint sample_parse c "hsl(10, 100%, 50%)" (num 100))
     = num 2.
Proof.
  intros c.
  destruct (hue_wraps_forward sample_parse c "hsl(10, 100%, 50%)")
    as (Hb & Hg & _); [reflexivity | reflexivity | reflexivity |].
  split; [exact Hb | exact Hg].
Defined.

Lemma hue_can_be_negative_witness :
  let c := mkHSLA (num 10) 1 (frac 1 2) 1 in
  h (BoostsDoc.applyTint sample_parse c "hsl(350, 100%, 50%)" (num 100))
  = num (-2)
  /\ h (TintingGuide.applyTint sample_parse c "hsl(350, 100%, 50%)" (num 100))
     = num (-2).
Proof.
  intros c.
  destruct (hue_can_be_negative sample_parse c "hsl(350, 100%, 50%)")
    as (Hb & Hg & _); [reflexivity | reflexivity | reflexivity |].
  split; [exact Hb | exact Hg].
Defined.

Lemma applyTint_clamp_noop_witness :
  let c := mkHSLA (num 400) (frac 6 10) (frac 4 10) 1 in
  TintingGuide.applyTint sample_parse c "#FF0000" (num 250)
  = BoostsDoc.applyTint sample_parse c "#FF0000" (num 250)
  /\ tintStage (TintingGuide.applyTint sample_parse)
       PipelineSpec.gray_red_theme c
     = tintStage (BoostsDoc.applyTint sample_parse)
         PipelineSpec.gray_red_theme c.
Proof.
  intros c.
  destruct (applyTint_clamp_noop sample_parse c "#FF0000" (num 250))
    as (_ & _ & Hsame & _);
    [unfold unit_range; qc_eval | unfold unit_range; qc_eval
    | unfold unit_range; qc_eval | unfold unit_range; qc_eval |].
  destruct (applyTint_clamp_noop sample_parse c "#FF0000" (num 100))
    as (_ & _ & _ & Hstage);
    [unfold unit_range; qc_eval | unfold unit_range; qc_eval
    | unfold unit_range; qc_eval | unfold unit_range; qc_eval |].
  split; [apply Hsame; [reflexivity | left; qc_eval]
         | apply Hstage; reflexivity].
Defined.

(** * The colour pipeline and its cache *)

Lemma gtb_0_false (k : number) : k = 0 -> gtb k 0 = false.
Proof. intros ->. reflexivity. Qed.

Lemma fingerprint_inj (T T' : Theme) : fingerprint T = fingerprint T' -> T = T'.
Proof.
  destruct T as [m ? ? ? ? ? ? ? ? ? ? ? ? ? ? ? ?],
           T' as [m' ? ? ? ? ? ? ? ? ? ? ? ? ? ? ? ?].
  unfold fingerprint, themeCacheKeys, theme_get, VNum, VStr, VBool.
  cbn [map mode brightness contrast grayscale sepia tintColor tintStrength
       darkSchemeBackgroundColor darkSchemeTextColor
       lightSchemeBackgroundColor lightSchemeTextColor scrollbarColor
       selectionColor useFont fontFamily textStroke styleSystemControls].
  intros E. injection E as Em. intros. subst.
  f_equal. destruct m, m'; trivial;
    apply (f_equal this) in Em; vm_compute in Em; discriminate.
Qed.

Section PipelineFacts.

Variable parse : string -> HSLA.
Variable applyTint : HSLA -> string -> number -> HSLA.
Variable modifyHSL : Theme -> HSLA -> HSLA.
Variable RGBA : Type.
Variable hslToRGB : HSLA -> RGBA.
Variable applyFilters : Theme -> RGBA -> RGBA.
Variable serialize : RGBA -> string.

Local Abbreviation compute :=
  (modifyColor parse applyTint modifyHSL RGBA hslToRGB applyFilters serialize).

Local Abbreviation query :=
  (modifyColorWithCache parse applyTint modifyHSL RGBA hslToRGB applyFilters
     serialize).

Local Abbreviation sound :=
  (cache_sound parse applyTint modifyHSL RGBA hslToRGB applyFilters serialize).

Lemma query_sound cache color T :
  sound cache -> sound (snd (query cache color T)).
Proof.
  intros Hc. unfold query, modifyColorWithCache.
  destruct (cache !! (color, fingerprint T)) eqn:E; cbn [snd]; trivial.
  intros color' T' v. rewrite lookup_insert. case_decide as Hk.
  - pose proof (f_equal fst Hk) as Hcol. pose proof (f_equal snd Hk) as Hf.
    cbn [fst snd] in Hcol, Hf. apply fingerprint_inj in Hf. subst color' T'.
    intros [= <-]. reflexivity.
  - apply Hc.
Qed.

Lemma reachable_sound cache :
  reachable parse applyTint modifyHSL RGBA hslToRGB applyFilters serialize cache ->
  sound cache.
Proof.
  induction 1 as [| cache color T _ IH].
  - intros color T v. rewrite lookup_empty. discriminate.
  - now apply query_sound.
Qed.

Lemma query_result cache color T :
  sound cache -> fst (query cache color T) = compute color T.
Proof.
  intros Hc. unfold query, modifyColorWithCache.
  destruct (cache !! (color, fingerprint T)) eqn:E; cbn [fst]; trivial.
  now apply Hc.
Qed.

Lemma query_other_key cache color T key :
  key <> (color, fingerprint T) ->
  snd (query cache color T) !! key = cache !! key.
Proof.
  intros Hk. unfold query, modifyColorWithCache.
  destruct (cache !! (color, fingerprint T)); cbn [snd]; trivial.
  now rewrite lookup_insert_ne.
Qed.

(** C4, amended. On a cache miss the stages run in this order: parsing to
    HSL, the dark mode transform, the tint, the conversion to RGB, the
    filters (brightness, contrast, sepia, grayscale), the final colour
    string; the result is stored under the colour and the fingerprint and
    returned.  The tint is applied to the colour of the dark mode transform,
    and the filters to the tinted colour. *)
Theorem stages_on_miss cache color T :
  cache !! (color, fingerprint T) = None ->
  let tinted := tintStage applyTint T (modifyHSL T (parse color)) in
  let result := serialize (applyFilters T (hslToRGB tinted)) in
  query cache color T = (result, <[(color, fingerprint T) := result]> cache).
Proof.
  intros Hmiss. unfold query, modifyColorWithCache. now rewrite Hmiss.
Qed.

(** C5. Themes that differ in a field have different fingerprints; so a
    query of a colour under one theme leaves the entry of that colour under
    any other theme as it was, and the query under the other theme returns
    what the pipeline computes under that theme. *)
Theorem cache_coherence cache color T T' :
  reachable parse applyTint modifyHSL RGBA hslToRGB applyFilters serialize cache ->
  T <> T' ->
  fingerprint T <> fingerprint T'
  /\ (let cache1 := snd (query cache color T) in
      cache1 !! (color, fingerprint T') = cache !! (color, fingerprint T')
      /\ fst (query cache1 color T') = compute color T').
Proof.
  intros Hreach Hne.
  assert (Hfp : fingerprint T <> fingerprint T')
    by (intros E; now apply Hne, fingerprint_inj).
  split; [exact Hfp |]. cbv zeta. split.
  - apply query_other_key. intros E. apply Hfp. symmetry.
    exact (f_equal snd E).
  - apply query_result, query_sound, reachable_sound, Hreach.
Qed.

End PipelineFacts.

Section TintStage.

Variable parse : string -> HSLA.
Variable modifyHSL : Theme -> HSLA -> HSLA.

(** C3. When the tint strength is 0 or the tint colour is empty, the tint
    stage returns the colour of the filter pipeline as it is, with either
    version of [applyTint] and whatever the other tint parameter; so does
    the guide's [applyTint] called on its own. *)
Theorem tint_identity (color : string) (T : Theme) :
  tintStrength T = 0 \/ tintColor T = ""%string ->
  let filtered := modifyHSL T (parse color) in
  tintStage (TintingGuide.applyTint parse) T filtered = filtered
  /\ tintStage (BoostsDoc.applyTint parse) T filtered = filtered
  /\ TintingGuide.applyTint parse filtered (tintColor T) (tintStrength T)
     = filtered.
Proof.
  intros Hoff filtered. unfold tintStage.
  destruct Hoff as [H0 | Hempty].
  - rewrite (gtb_0_false _ H0), andb_false_r. repeat split.
    apply guide_at_most_0. rewrite H0. apply Qcle_refl.
  - rewrite Hempty. repeat split.
Qed.

End TintStage.

(** ** The pipeline run on sample stages *)

Lemma tint_identity_witness :
  let T := PipelineSpec.gray_red_theme in
  let T0 := spread T [Set_tintStrength 0] in
  let filtered := PipelineSpec.invertLightness T0 (sample_parse "#FF0000") in
  tintStage (TintingGuide.applyTint sample_parse) T0 filtered = filtered
  /\ tintStage (BoostsDoc.applyTint sample_parse) T0 filtered = filtered.
Proof.
  intros T T0 filtered.
  destruct (tint_identity sample_parse PipelineSpec.invertLightness "#FF0000" T0)
    as (Hg & Hb & _); [left; reflexivity |].
  split; [exact Hg | exact Hb].
Defined.

Lemma stages_on_miss_witness :
  modifyColorWithCache sample_parse (BoostsDoc.applyTint sample_parse)
    PipelineSpec.invertLightness HSLA id PipelineSpec.grayscaleFilter
    PipelineSpec.show_hsla ∅ "hsl(350, 100%, 50%)" PipelineSpec.gray_red_theme
  = ("hsla(356/1, 0/1, 1/2, 1/1)"%string,
     {[ ("hsl(350, 100%, 50%)"%string, fingerprint PipelineSpec.gray_red_theme)
        := "hsla(356/1, 0/1, 1/2, 1/1)"%string ]}).
Proof.
  rewrite (stages_on_miss sample_parse (BoostsDoc.applyTint sample_parse)
             PipelineSpec.invertLightness HSLA id PipelineSpec.grayscaleFilter
             PipelineSpec.show_hsla ∅ "hsl(350, 100%, 50%)"
             PipelineSpec.gray_red_theme (lookup_empty _)).
  reflexivity.
Defined.

(** C4 as stated fails.  With full grayscale and a full red tint the code,
    which tints first and filters afterwards, returns a colour of saturation
    0; in the order of the claim, with the tint after the filters, the result
    would have saturation 1/2. *)
Lemma tint_is_not_after_filters :
  let color := "hsl(350, 100%, 50%)"%string in
  let T := PipelineSpec.gray_red_theme in
  let tintBlender := tintStage (BoostsDoc.applyTint sample_parse) in
  let filterPipeline :=
    fun T c => PipelineSpec.grayscaleFilter T (PipelineSpec.invertLightness T c) in
  fst (modifyColorWithCache sample_parse (BoostsDoc.applyTint sample_parse)
         PipelineSpec.invertLightness HSLA id PipelineSpec.grayscaleFilter
         PipelineSpec.show_hsla ∅ color T)
  = "hsla(356/1, 0/1, 1/2, 1/1)"%string
  /\ PipelineSpec.transform sample_parse filterPipeline tintBlender
       PipelineSpec.show_hsla color T
     = "hsla(356/1, 1/2, 1/2, 1/1)"%string
  /\ fst (modifyColorWithCache sample_parse (BoostsDoc.applyTint sample_parse)
            PipelineSpec.invertLightness HSLA id PipelineSpec.grayscaleFilter
            PipelineSpec.show_hsla ∅ color T)
     <> PipelineSpec.transform sample_parse filterPipeline tintBlender
          PipelineSpec.show_hsla color T.
Proof.
  intros color T tintBlender filterPipeline.
  assert (Hcode :
    fst (modifyColorWithCache sample_parse (BoostsDoc.applyTint sample_parse)
           PipelineSpec.invertLightness HSLA id PipelineSpec.grayscaleFilter
           PipelineSpec.show_hsla ∅ color T)
    = "hsla(356/1, 0/1, 1/2, 1/1)"%string).
  { unfold modifyColorWithCache. rewrite lookup_empty. cbn [fst].
    vm_compute. reflexivity. }
  assert (Hspec :
    PipelineSpec.transform sample_parse filterPipeline tintBlender
      PipelineSpec.show_hsla color T
    = "hsla(356/1, 1/2, 1/2, 1/1)"%string) by (vm_compute; reflexivity).
  rewrite Hcode, Hspec. repeat split. discriminate.
Qed.

Lemma cache_coherence_witness :
  let T := PipelineSpec.gray_red_theme in
  let T' := spread T [Set_tintStrength (num 30)] in
  let query :=
    modifyColorWithCache sample_parse (BoostsDoc.applyTint sample_parse)
      PipelineSpec.invertLightness HSLA id PipelineSpec.grayscaleFilter
      PipelineSpec.show_hsla in
  fingerprint T <> fingerprint T'
  /\ fst (query (snd (query ∅ "#FF0000" T)) "#FF0000" T')
     = modifyColor sample_parse (BoostsDoc.applyTint sample_parse)
         PipelineSpec.invertLightness HSLA id PipelineSpec.grayscaleFilter
         PipelineSpec.show_hsla "#FF0000" T'.
Proof.
  intros T T' query.
  destruct (cache_coherence sample_parse (BoostsDoc.applyTint sample_parse)
              PipelineSpec.invertLightness HSLA id PipelineSpec.grayscaleFilter
              PipelineSpec.show_hsla ∅ "#FF0000" T T')
    as (Hfp & _ & Hres).
  - apply reachable_empty.
  - intros E. apply (f_equal tintStrength) in E. apply (f_equal this) in E.
    vm_compute in E. discriminate.
  - split; [exact Hfp | exact Hres].
Defined.

(** * The popup's filter settings *)

Section FilterSettingsFacts.

Variable settings_theme : Theme.
Variable customThemes : list CustomTheme.
Variable activeTab_url : string.
Variable isURLInList : string -> list string -> bool.

Local Abbreviation custom_of l :=
  (FilterSettings.custom l activeTab_url isURLInList).

Local Abbreviation update_custom :=
  (FilterSettings.update_custom activeTab_url isURLInList).

Lemma update_custom_found (config : list Assignment) (l : list CustomTheme)
    (c : CustomTheme) :
  custom_of l = Some c ->
  custom_of (update_custom config l)
  = Some (mkCustomTheme (url c) (spread (theme c) config)).
Proof.
  unfold FilterSettings.custom. induction l as [| c0 rest IH]; [discriminate |].
  cbn [List.find FilterSettings.update_custom].
  destruct (isURLInList activeTab_url (url c0)) eqn:E.
  - intros [= ->]. cbn [List.find url]. now rewrite E.
  - intros Hrest. cbn [List.find]. rewrite E. now apply IH.
Qed.

End FilterSettingsFacts.

(** * More on the tint blender *)

Lemma num_lt (x y : Z) : (x < y)%Z -> num x < num y.
Proof.
  intros H. unfold Qclt, num, Q2Qc. cbn [this]. rewrite !Qred_correct.
  unfold Qlt, inject_Z. cbn. lia.
Qed.


Lemma trunc_num (z : Z) : trunc (num z) = z.
Proof.
  unfold trunc, num, Q2Qc. cbn [this].
  rewrite Qred_identity by (cbn; apply Z.gcd_1_r).
  cbn. apply Z.quot_1_r.
Qed.

(** The whole part [z] of a number in [z, z+1), for [z] not negative. *)
Lemma trunc_floor (q : number) (z : Z) :
  (0 <= z)%Z -> num z <= q -> q < num (z + 1) -> trunc q = z.
Proof.
  intros Hz Hlo Hhi. unfold Qcle, Qclt, num, Q2Qc in Hlo, Hhi.
  cbn [this] in Hlo, Hhi. rewrite !Qred_correct in Hlo, Hhi.
  destruct q as [[n d] c]. unfold trunc, Qle, Qlt, inject_Z in *. cbn in *.
  rewrite Z.quot_div_nonneg by lia.
  symmetry. apply (Z.div_unique n (Z.pos d) z (n - Z.pos d * z)); lia.
Qed.

(** [x % 360] for [x] in [360, 720). *)
Lemma rem_second_turn (x : number) :
  num 360 <= x -> x < num 720 -> rem x (num 360) = x - num 360.
Proof.
  intros Hlo Hhi. unfold rem.
  rewrite (trunc_floor (x / num 360) 1); [| lia | |].
  - replace (num 1) with 1 by now apply Qc_is_canon. ring.
  - qc_to_q. lra.
  - change (num (1 + 1)) with (num 2). qc_to_q. lra.
Qed.

(** A blend [x + (t - x) * c * w] with [c] and [w] in [0,1] lies between
    [x] and [t]. *)
Lemma blend_between (x t c w : number) :
  unit_range c -> unit_range w ->
  (x <= t -> x <= x + (t - x) * c * w /\ x + (t - x) * c * w <= t)
  /\ (t <= x -> t <= x + (t - x) * c * w /\ x + (t - x) * c * w <= x).
Proof.
  unfold unit_range. intros [Hc0 Hc1] [Hw0 Hw1].
  assert (Hm : 0 <= c * w /\ c * w <= 1) by (qc_to_q; split; nra).
  replace (x + (t - x) * c * w) with (x + (t - x) * (c * w)) by ring.
  destruct Hm as [Hm0 Hm1]. generalize dependent (c * w). intros m Hm0 Hm1.
  split; intros Hxt; qc_to_q; split; nra.
Qed.

(** The blended hue before the remainder: from two canonical hues it lies in
    (-108, 468), and is not negative when the short arc goes forward. *)
Lemma blended_hue_bounds (hc ht k : number) :
  canonical_hue hc -> canonical_hue ht -> unit_range k ->
  num (-108) < hc + TintSpec.shortest_arc hc ht * k * frac 6 10
  /\ hc + TintSpec.shortest_arc hc ht * k * frac 6 10 < num 468.
Proof.
  unfold canonical_hue, unit_range.
  intros [Hc0 Hc1] [Ht0 Ht1] [Hk0 Hk1].
  assert (Hm : 0 <= k * frac 6 10 /\ k * frac 6 10 <= frac 6 10)
    by (qc_to_q; split; nra).
  replace (hc + TintSpec.shortest_arc hc ht * k * frac 6 10)
    with (hc + TintSpec.shortest_arc hc ht * (k * frac 6 10)) by ring.
  destruct Hm as [Hm0 Hm1]. generalize dependent (k * frac 6 10).
  intros m Hm0 Hm1.
  unfold TintSpec.shortest_arc. cbv zeta. unfold gtb.
  case_ltb (num 180) (ht - hc); [| case_ltb (ht - hc) (num (-180))];
    qc_to_q; split; nra.
Qed.

Lemma rem_after_blend (x : number) :
  num (-108) < x -> x < num 468 ->
  num (-108) < rem x (num 360) /\ rem x (num 360) < num 360.
Proof.
  intros Hlo Hhi. destruct (Qclt_le_dec x (num 360)) as [Hsmall | Hbig].
  - rewrite rem_small; [auto | qc_to_q; lra | assumption].
  - rewrite rem_second_turn; [| assumption | qc_to_q; lra].
    qc_to_q. split; lra.
Qed.

Lemma num_succ (z : Z) : num (z + 1) = num z + 1.
Proof.
  apply Qc_is_canon. unfold num, Qcplus, Q2Qc. cbn [this].
  rewrite !Qred_correct. cbn [this]. rewrite ?Qred_correct.
  rewrite inject_Z_plus. reflexivity.
Qed.

(** [floor] is the whole part below: the integer [z] with [z <= q < z+1]. *)
Lemma floor_spec (q : number) :
  num (TintSpec.floor q) <= q /\ q < num (TintSpec.floor q + 1).
Proof.
  unfold Qcle, Qclt, num, Q2Qc. cbn [this]. rewrite !Qred_correct.
  destruct q as [[n d] c]. unfold TintSpec.floor, Qle, Qlt, inject_Z. cbn.
  pose proof (Z.mul_div_le n (Z.pos d)).
  pose proof (Z.mul_succ_div_gt n (Z.pos d)). lia.
Qed.

Lemma floor_unique (q : number) (z : Z) :
  num z <= q -> q < num (z + 1) -> TintSpec.floor q = z.
Proof.
  intros Hlo Hhi. unfold Qcle, Qclt, num, Q2Qc in Hlo, Hhi.
  cbn [this] in Hlo, Hhi. rewrite !Qred_correct in Hlo, Hhi.
  destruct q as [[n d] c]. unfold TintSpec.floor, Qle, Qlt, inject_Z in *.
  cbn in *.
  symmetry. apply (Z.div_unique n (Z.pos d) z (n - Z.pos d * z)); lia.
Qed.

(** [x mod m] is the representative of [x] in [0,m). *)
Lemma modulo_range (x m : number) :
  0 < m -> 0 <= TintSpec.modulo x m /\ TintSpec.modulo x m < m.
Proof.
  intros Hm. unfold TintSpec.modulo.
  destruct (floor_spec (x / m)) as [Hlo Hhi].
  assert (Hx : x = m * (x / m)).
  { rewrite Qcmult_div_r; trivial. intros E. rewrite E in Hm.
    revert Hm. apply Qcle_not_lt, Qcle_refl. }
  generalize dependent (x / m). intros q Hlo Hhi ->.
  generalize dependent (TintSpec.floor q). intros z Hlo Hhi.
  rewrite num_succ in Hhi. generalize dependent (num z). intros w Hlo Hhi.
  qc_to_q. split; nra.
Qed.

(** The remainder against the representative in [0,360): they agree on
    [0,720) and differ by 360 on (-360,0). *)
Lemma rem_modulo_360 (x : number) :
  num (-360) < x -> x < num 720 ->
  (0 <= x -> rem x (num 360) = TintSpec.modulo x (num 360))
  /\ (x < 0 -> rem x (num 360) = TintSpec.modulo x (num 360) - num 360).
Proof.
  intros Hlo Hhi. split; intros Hx.
  - destruct (Qclt_le_dec x (num 360)) as [Hsmall | Hbig].
    + rewrite rem_small by (trivial; qc_to_q; lra). unfold TintSpec.modulo.
      rewrite (floor_unique (x / num 360) 0), num_0; [ring | |];
        [| change (num (0 + 1)) with (num 1)]; qc_to_q; lra.
    + rewrite rem_second_turn by assumption. unfold TintSpec.modulo.
      rewrite (floor_unique (x / num 360) 1);
        [| | change (num (1 + 1)) with (num 2)]; [| qc_to_q; lra ..].
      replace (num 1) with 1 by now apply Qc_is_canon. ring.
  - rewrite rem_small by (trivial; qc_to_q; lra). unfold TintSpec.modulo.
    rewrite (floor_unique (x / num 360) (-1));
      [| | change (num (-1 + 1)) with (num 0)]; [| qc_to_q; lra ..].
    replace (num (-1)) with (- (1)) by now apply Qc_is_canon. ring.
Qed.

Section TintBlenderBounds.

Variable parse : string -> HSLA.

(** X1. From a colour and a tint of canonical hue (in [0,360)), the hue that
    [applyTint] returns lies strictly between -108 and 360, whatever the
    strength, the saturations and the lightnesses: it can be negative, but
    never by 108 degrees or more, and never reaches 360. *)
Theorem applyTint_hue_range (hsl : HSLA) (tintColor : string) (k : number) :
  canonical_hue (h hsl) -> canonical_hue (h (parse tintColor)) ->
  (num (-108) < h (BoostsDoc.applyTint parse hsl tintColor k)
   /\ h (BoostsDoc.applyTint parse hsl tintColor k) < num 360)
  /\ (num (-108) < h (TintingGuide.applyTint parse hsl tintColor k)
      /\ h (TintingGuide.applyTint parse hsl tintColor k) < num 360).
Proof.
  intros Hc Ht.
  assert (Hb : num (-108) < h (BoostsDoc.applyTint parse hsl tintColor k)
               /\ h (BoostsDoc.applyTint parse hsl tintColor k) < num 360).
  { unfold BoostsDoc.applyTint. cbv zeta. cbn [h].
    change (Math_min (num 100) (Math_max 0 k)) with (clamp_strength k).
    apply rem_after_blend;
      apply (blended_hue_bounds (h hsl) (h (parse tintColor))
               (clamp_strength k / num 100));
      auto using strength_unit_range. }
  split; [exact Hb |].
  destruct (truthy tintColor) eqn:Etint;
    [destruct (Qclt_le_dec 0 k) as [Hpos | Hle] |].
  - rewrite guide_past_guard by assumption. exact Hb.
  - rewrite guide_at_most_0 by assumption.
    destruct Hc as [Hc0 Hc1]. split; [qc_to_q; lra | assumption].
  - unfold TintingGuide.applyTint. rewrite Etint. cbn [negb orb].
    destruct Hc as [Hc0 Hc1]. split; [qc_to_q; lra | assumption].
Qed.

(** X2. The saturation and the lightness that the Boosts version returns lie
    between those of the colour and those of the tint, ends included, on
    every input: the blend moves toward the tint and never past it, and
    never away from it. *)
Theorem applyTint_moves_toward_tint
    (hsl : HSLA) (tintColor : string) (k : number) :
  let tint := parse tintColor in
  let r := BoostsDoc.applyTint parse hsl tintColor k in
  (s hsl <= s tint -> s hsl <= s r /\ s r <= s tint)
  /\ (s tint <= s hsl -> s tint <= s r /\ s r <= s hsl)
  /\ (l hsl <= l tint -> l hsl <= l r /\ l r <= l tint)
  /\ (l tint <= l hsl -> l tint <= l r /\ l r <= l hsl).
Proof.
  cbv zeta. unfold BoostsDoc.applyTint. cbv zeta. cbn [s l].
  change (Math_min (num 100) (Math_max 0 k)) with (clamp_strength k).
  destruct (blend_between (s hsl) (s (parse tintColor))
              (clamp_strength k / num 100) (frac 5 10)
              (strength_unit_range k) unit_range_frac_5_10) as [Hs1 Hs2].
  destruct (blend_between (l hsl) (l (parse tintColor))
              (clamp_strength k / num 100) (frac 2 10)
              (strength_unit_range k) unit_range_frac_2_10) as [Hl1 Hl2].
  auto.
Qed.

(** X24. For a colour and a tint of canonical hue and a strength in
    [0,100], the Boosts version returns the saturation, lightness and alpha
    of the blend of section 4.3.  The hue of the blend is in [0,360); the
    returned hue is that hue when the blended angle
    colorHue + d*k*0.6 is not negative, and 360 below it, hence negative,
    when the blended angle is negative.  With a non-empty tint colour and
    saturations and lightnesses in [0,1] the guide's version returns the
    same colour as the Boosts version. *)
Theorem applyTint_against_blend
    (hsl : HSLA) (tintColor : string) (k : number) :
  let tint := parse tintColor in
  let r := BoostsDoc.applyTint parse hsl tintColor k in
  let b := TintSpec.blend hsl tint k in
  let angle :=
    h hsl + TintSpec.shortest_arc (h hsl) (h tint) * (k / num 100) * frac 6 10 in
  canonical_hue (h hsl) -> canonical_hue (h tint) ->
  0 <= k -> k <= num 100 ->
  s r = s b /\ l r = l b /\ a r = a b
  /\ canonical_hue (h b)
  /\ (0 <= angle -> h r = h b)
  /\ (angle < 0 -> h r = h b - num 360 /\ h r < 0)
  /\ (truthy tintColor = true ->
      unit_range (s hsl) -> unit_range (l hsl) ->
      unit_range (s tint) -> unit_range (l tint) ->
      TintingGuide.applyTint parse hsl tintColor k = r).
Proof.
  intros tint r b angle Hc Ht Hk0 Hk100.
  assert (Hr : r = {| h := rem angle (num 360); s := s b; l := l b;
                      a := a b |}).
  { subst r b angle tint. unfold BoostsDoc.applyTint, TintSpec.blend.
    cbv zeta. cbn [s l a].
    change (Math_min (num 100) (Math_max 0 k)) with (clamp_strength k).
    now rewrite clamp_strength_id. }
  assert (Hb : h b = TintSpec.modulo angle (num 360)) by reflexivity.
  assert (Hunit : unit_range (k / num 100))
    by (unfold unit_range; qc_to_q; split; lra).
  destruct (blended_hue_bounds (h hsl) (h tint) (k / num 100) Hc Ht Hunit)
    as [Hlo Hhi]. fold angle in Hlo, Hhi.
  destruct (rem_modulo_360 angle) as [Hnonneg Hneg];
    [qc_to_q; lra | qc_to_q; lra |].
  rewrite Hr, Hb. cbn [h s l a]. clearbody angle.
  repeat match goal with |- _ /\ _ => split end; trivial.
  - apply modulo_range. qc_eval.
  - intros Hx. split; [now apply Hneg |].
    rewrite rem_small; trivial; qc_to_q; lra.
  - intros Htr Hs Hl Hts Htl. rewrite <- Hr. apply guide_is_boosts; trivial.
    right. destruct Hc. split; [qc_to_q; lra | assumption].
Qed.

End TintBlenderBounds.

Lemma applyTint_hue_range_witness :
  let c := mkHSLA (num 10) 1 (frac 1 2) 1 in
  num (-108) < h (BoostsDoc.applyTint sample_parse c "hsl(350, 100%, 50%)" (num 250))
  /\ h (TintingGuide.applyTint sample_parse c "hsl(350, 100%, 50%)" (num 250))
     < num 360.
Proof.
  intros c.
  destruct (applyTint_hue_range sample_parse c "hsl(350, 100%, 50%)" (num 250))
    as [[Hb _] [_ Hg]]; [unfold canonical_hue; qc_eval
                        | unfold canonical_hue; qc_eval |].
  split; [exact Hb | exact Hg].
Defined.

Lemma applyTint_moves_toward_tint_witness :
  let c := mkHSLA (num 210) (frac 6 10) (frac 4 10) 1 in
  s c <= s (BoostsDoc.applyTint sample_parse c "#FF0000" (num 30))
  /\ s (BoostsDoc.applyTint sample_parse c "#FF0000" (num 30))
     <= s (sample_parse "#FF0000").
Proof.
  intros c.
  destruct (applyTint_moves_toward_tint sample_parse c "#FF0000" (num 30))
    as (Hs & _).
  apply Hs. qc_eval.
Defined.

Lemma applyTint_against_blend_witness :
  let c := mkHSLA (num 10) 1 (frac 1 2) 1 in
  let r := BoostsDoc.applyTint sample_parse c "hsl(350, 100%, 50%)" (num 100) in
  let b := TintSpec.blend c (sample_parse "hsl(350, 100%, 50%)") (num 100) in
  s r = s b /\ h r = h b - num 360 /\ h r < 0.
Proof.
  intros c r b.
  destruct (applyTint_against_blend sample_parse c "hsl(350, 100%, 50%)"
              (num 100))
    as (Hs & _ & _ & _ & _ & Hneg & _);
    [unfold canonical_hue; qc_eval | unfold canonical_hue; qc_eval
    | qc_eval | qc_eval |].
  split; [exact Hs | apply Hneg; qc_eval].
Defined.

(** * The custom tint algorithms *)

Lemma Qcdiv_opp (x y : number) : (- x) / y = - (x / y).
Proof. unfold Qcdiv. ring. Qed.

(** X3. [applyTemperatureTint] gives the same colour for a temperature and
    for its opposite: the "cool" branch subtracts a negative shift, so both
    branches move the hue forward by |temperature| * 0.3 degrees. *)
Theorem applyTemperatureTint_sign (hsl : HSLA) (temperature : number) :
  CustomTint.applyTemperatureTint hsl (- temperature)
  = CustomTint.applyTemperatureTint hsl temperature.
Proof.
  unfold CustomTint.applyTemperatureTint. cbv zeta. rewrite Qcdiv_opp.
  set (shift := temperature / num 100). unfold gtb.
  case_ltb 0 (- shift); case_ltb 0 shift.
  - exfalso. qc_to_q. lra.
  - do 2 f_equal; ring.
  - do 2 f_equal; ring.
  - assert (shift = 0) as -> by (apply Qcle_antisym; qc_to_q; lra).
    do 2 f_equal; ring.
Qed.

(** X4. For a colour of canonical hue and a temperature in [-100,100],
    [applyTemperatureTint] returns a canonical hue again, the old one moved
    forward by |temperature| * 0.3 degrees around the circle, and leaves
    saturation, lightness and alpha as they were. *)
Theorem applyTemperatureTint_canonical (hsl : HSLA) (temperature : number) :
  canonical_hue (h hsl) ->
  num (-100) <= temperature -> temperature <= num 100 ->
  let r := CustomTint.applyTemperatureTint hsl temperature in
  let moved :=
    h hsl + (if ltb temperature 0 then - temperature else temperature)
            * frac 3 10 in
  canonical_hue (h r)
  /\ h r = (if ltb moved (num 360) then moved else moved - num 360)
  /\ s r = s hsl /\ l r = l hsl /\ a r = a hsl.
Proof.
  intros [Hh0 Hh1] Hlo Hhi. cbv zeta.
  assert (Hrest : forall x,
            s (CustomTint.applyTemperatureTint hsl x) = s hsl
            /\ l (CustomTint.applyTemperatureTint hsl x) = l hsl
            /\ a (CustomTint.applyTemperatureTint hsl x) = a hsl).
  { intros x. unfold CustomTint.applyTemperatureTint. cbv zeta.
    destruct (gtb (x / num 100) 0); repeat split. }
  assert (Hhue : h (CustomTint.applyTemperatureTint hsl temperature)
                 = rem (h hsl
                        + (if ltb temperature 0 then - temperature
                           else temperature) * frac 3 10) (num 360)).
  { unfold CustomTint.applyTemperatureTint. cbv zeta. unfold gtb.
    case_ltb 0 (temperature / num 100); case_ltb temperature 0; cbn [h];
      f_equal; try (unfold Qcdiv; apply Qc_is_canon; qc_to_q; field).
    - exfalso. qc_to_q. lra.
    - assert (temperature = 0) as -> by (apply Qcle_antisym; qc_to_q; lra).
      apply Qc_is_canon. qc_to_q. field. }
  rewrite Hhue.
  set (moved := h hsl + (if ltb temperature 0 then - temperature
                         else temperature) * frac 3 10).
  assert (Hm : h hsl <= moved /\ moved < num 390).
  { subst moved. case_ltb temperature 0; qc_to_q; split; lra. }
  destruct Hm as [Hm0 Hm1].
  split; [| split; [| apply Hrest]].
  - unfold canonical_hue. case_ltb moved (num 360).
    + rewrite rem_small; [split | |]; trivial; qc_to_q; lra.
    + rewrite rem_second_turn; [split | |]; trivial; qc_to_q; lra.
  - case_ltb moved (num 360).
    + apply rem_small; [qc_to_q; lra | assumption].
    + apply rem_second_turn; [assumption | qc_to_q; lra].
Qed.

(** X5. [applySaturationBoost] never returns a saturation above 1; for a
    saturation in [0,1] and a boost that is not negative the saturation does
    not decrease, a boost of 0 changes nothing, and hue, lightness and alpha
    are never touched. *)
Theorem applySaturationBoost_range (hsl : HSLA) (boost : number) :
  let r := CustomTint.applySaturationBoost hsl boost in
  s r <= 1
  /\ h r = h hsl /\ l r = l hsl /\ a r = a hsl
  /\ (unit_range (s hsl) -> 0 <= boost ->
      s hsl <= s r /\ (boost = 0 -> r = hsl)).
Proof.
  cbv zeta. unfold CustomTint.applySaturationBoost. cbv zeta. cbn [h s l a].
  set (x := s hsl * (1 + boost / num 100)).
  split; [| repeat split].
  - destruct (Math_min_spec 1 x) as [[Hlt ->] | [Hle ->]];
      [qc_to_q; lra | apply Qcle_refl].
  - destruct H as [Hs0 Hs1].
    assert (Hx : s hsl <= x).
    { subst x. generalize dependent (s hsl). intros v Hv0 Hv1.
      qc_to_q. nra. }
    destruct (Math_min_spec 1 x) as [[Hlt ->] | [Hle ->]]; assumption.
  - intros ->. destruct H as [Hs0 Hs1]. apply HSLA_eq; cbn [h s l a]; trivial.
    subst x. replace (s hsl * (1 + 0 / num 100)) with (s hsl)
      by (unfold Qcdiv; ring).
    now apply Math_min_le.
Qed.

Lemma applyTemperatureTint_canonical_witness :
  let c := mkHSLA (num 350) 1 (frac 1 2) 1 in
  h (CustomTint.applyTemperatureTint c (num (-100))) = num 20
  /\ h (CustomTint.applyTemperatureTint c (num 100)) = num 20.
Proof.
  intros c.
  destruct (applyTemperatureTint_canonical c (num (-100)))
    as (_ & Hcool & _); [unfold canonical_hue; qc_eval | qc_eval | qc_eval |].
  destruct (applyTemperatureTint_canonical c (num 100))
    as (_ & Hwarm & _); [unfold canonical_hue; qc_eval | qc_eval | qc_eval |].
  split; [rewrite Hcool | rewrite Hwarm]; qc_eval.
Defined.

Lemma applySaturationBoost_range_witness :
  let c := mkHSLA (num 350) (frac 6 10) (frac 1 2) 1 in
  s c <= s (CustomTint.applySaturationBoost c (num 100))
  /\ s (CustomTint.applySaturationBoost c (num 100)) <= 1.
Proof.
  intros c.
  destruct (applySaturationBoost_range c (num 100)) as (Hle & _ & _ & _ & Hup).
  split; [| exact Hle].
  apply Hup; [unfold unit_range |]; qc_eval.
Defined.

(** * Tint presets and themes on the Swift side *)



(** X7. For every hour of the day, 0 to 23, [TintManager.getTimeBasedTint]
    and the free function [getTintForTimeOfDay] return the same tint, and
    its strength is between 15 and 25; the [default] case of
    [getTintForTimeOfDay] is never taken. *)
Theorem time_tints_agree (hour : Z) :
  (0 <= hour < 24)%Z ->
  TintManager.getTimeBasedTint hour = TintManager.getTintForTimeOfDay hour
  /\ (15 <= snd (TintManager.getTintForTimeOfDay hour) <= 25)%Z.
Proof.
  intros Hh.
  unfold TintManager.getTimeBasedTint, TintManager.getTintForTimeOfDay,
    TintManager.inRange.
  destruct (6 <=? hour)%Z eqn:E6, (hour <? 9)%Z eqn:E9,
    (9 <=? hour)%Z eqn:E9', (hour <? 17)%Z eqn:E17,
    (17 <=? hour)%Z eqn:E17', (hour <? 20)%Z eqn:E20,
    (20 <=? hour)%Z eqn:E20', (hour <? 24)%Z eqn:E24,
    (0 <=? hour)%Z eqn:E0, (hour <? 6)%Z eqn:E6';
    cbn; repeat split; try lia.
Qed.

Lemma time_tints_agree_witness :
  TintManager.getTimeBasedTint 21 = TintManager.getTintForTimeOfDay 21.
Proof. apply (time_tints_agree 21). lia. Defined.

(** Outside 0 to 23 the two differ: the [default] cases do not agree. *)
Example time_tints_differ_outside_day :
  TintManager.getTimeBasedTint 24 = ("#9B59B6"%string, 18%Z)
  /\ TintManager.getTintForTimeOfDay 24 = ("#4ECDC4"%string, 20%Z).
Proof. split; reflexivity. Qed.


(** * The advanced manager *)

Section AdvancedManagerFacts.

Import AdvancedDarkReaderManager.

(** What one call adds to the scripts of a web view that is there, with the
    flag after the call. *)
Lemma step_scripts (st : State) (c : Call) (log : list Script) :
  webView st = Some log ->
  exists new,
    webView (step st c) = Some (log ++ new)
    /\ match new with
       | [] => isDarkModeEnabled (step st c) = isDarkModeEnabled st
       | [DarkReader_enable _] => isDarkModeEnabled (step st c) = true
       | [DarkReader_disable] => isDarkModeEnabled (step st c) = false
       | _ => False
       end.
Proof.
  intros Hw.
  destruct c as [[t |] | | updater | t [[hn |]] | u]; cbn;
    unfold applyCurrentSiteTheme; rewrite ?Hw;
    try (destruct (isDarkModeEnabled st) eqn:E); cbn; rewrite ?Hw; cbn;
    try (eexists [_]; split; [reflexivity | cbn; auto]; fail);
    try (exists []; rewrite app_nil_r; split; [reflexivity | cbn; auto]; fail).
Qed.

(** X10. The flag of the manager agrees with the last script it sent: after
    any run of calls, the scripts of the web view are the old ones followed
    by those of the run; if the run sent none the flag is as before, if the
    last one is [DarkReader.disable()] the flag is off, and if it is a
    [DarkReader.enable(...)] the flag is on.  So the manager never leaves the
    page enabled while it holds itself disabled, nor the other way round. *)
Theorem flag_follows_scripts (st : State) (calls : list Call)
    (log : list Script) :
  webView st = Some log ->
  exists new,
    webView (run st calls) = Some (log ++ new)
    /\ match last new with
       | None => isDarkModeEnabled (run st calls) = isDarkModeEnabled st
       | Some (DarkReader_enable _) => isDarkModeEnabled (run st calls) = true
       | Some DarkReader_disable => isDarkModeEnabled (run st calls) = false
       end.
Proof.
  intros Hw. induction calls as [| c calls IH] using rev_ind.
  - exists []. rewrite app_nil_r. split; [exact Hw | reflexivity].
  - destruct IH as (new & Hrun & Hlast).
    unfold run in *. rewrite fold_left_app. cbn [fold_left].
    destruct (step_scripts (fold_left step calls st) c (log ++ new) Hrun)
      as (more & Hstep & Hflag).
    exists (new ++ more). rewrite app_assoc. split; [exact Hstep |].
    destruct more as [| x [| y more]].
    + rewrite app_nil_r. rewrite Hflag. exact Hlast.
    + rewrite last_snoc. destruct x; exact Hflag.
    + destruct x; contradiction.
Qed.

(** X11. A site theme is found again under its host and nowhere else:
    after [setSiteTheme] for a URL with a host, [getSiteTheme] returns that
    theme for the URL and what it returned before for every URL of another
    host or of none, and the global theme and the flag are as before; for a
    URL without a host [setSiteTheme] changes nothing at all, and
    [getSiteTheme] finds nothing. *)
Theorem site_theme_round_trip
    (t : Nook.DarkReaderTheme) (url : URL) (st : State) :
  match host url with
  | Some hostname =>
      getSiteTheme url (setSiteTheme t url st) = Some t
      /\ (forall url', host url' <> Some hostname ->
            getSiteTheme url' (setSiteTheme t url st) = getSiteTheme url' st)
      /\ globalTheme (setSiteTheme t url st) = globalTheme st
      /\ isDarkModeEnabled (setSiteTheme t url st) = isDarkModeEnabled st
  | None => setSiteTheme t url st = st /\ getSiteTheme url st = None
  end.
Proof.
  unfold getSiteTheme, setSiteTheme.
  destruct (host url) as [hostname |]; [| split; reflexivity].
  destruct (isDarkModeEnabled st) eqn:E; cbn; rewrite ?E; cbn;
    (repeat split; [apply lookup_insert_eq | | trivial..]);
    intros url' Hne; destruct (host url') as [hn' |]; trivial;
    apply lookup_insert_ne; congruence.
Qed.

(** X12. While the manager is enabled and its web view is there, setting a
    site theme sends that theme to the page at once, whatever page is shown;
    a later [applyCurrentSiteTheme] sends the site theme for a URL of that
    host, and the global theme for a URL without a site theme (or without a
    host). *)
Theorem site_theme_applied
    (t : Nook.DarkReaderTheme) (url : URL) (hostname : string) (st : State)
    (log : list Script) :
  isDarkModeEnabled st = true -> webView st = Some log ->
  host url = Some hostname ->
  let st1 := setSiteTheme t url st in
  webView st1 = Some (log ++ [DarkReader_enable (Nook.toJSON t)])
  /\ webView (applyCurrentSiteTheme url st1)
     = Some (log ++ [DarkReader_enable (Nook.toJSON t);
                     DarkReader_enable (Nook.toJSON t)])
  /\ (forall url', getSiteTheme url' st1 = None ->
        webView (applyCurrentSiteTheme url' st1)
        = Some (log ++ [DarkReader_enable (Nook.toJSON t);
                        DarkReader_enable (Nook.toJSON (globalTheme st))])).
Proof.
  intros Hon Hw Hhost. cbv zeta.
  assert (Hsent : webView (setSiteTheme t url st)
                  = Some (log ++ [DarkReader_enable (Nook.toJSON t)])).
  { unfold setSiteTheme. rewrite Hhost. cbn. rewrite Hon. cbn.
    now rewrite Hw. }
  assert (Hflag : isDarkModeEnabled (setSiteTheme t url st)
                  = isDarkModeEnabled st)
    by (unfold setSiteTheme; rewrite Hhost; cbn; now rewrite Hon).
  assert (Hglobal : globalTheme (setSiteTheme t url st) = globalTheme st)
    by (unfold setSiteTheme; rewrite Hhost; cbn; now rewrite Hon).
  assert (Hget : getSiteTheme url (setSiteTheme t url st) = Some t)
    by (unfold getSiteTheme, setSiteTheme; rewrite Hhost; cbn; rewrite Hon;
        cbn; apply lookup_insert_eq).
  split; [exact Hsent |].
  split; [| intros url' Hnone]; unfold applyCurrentSiteTheme;
    rewrite Hflag, Hon, ?Hget, ?Hnone, ?Hglobal; cbn; rewrite Hsent; cbn;
    now rewrite <- app_assoc.
Qed.

Lemma step_saved (st : State) (c : Call) :
  saves c = true \/ saved st -> saved (step st c).
Proof.
  unfold saved.
  destruct c as [[t |] | | updater | t [[hn |]] | u]; cbn;
    unfold applyCurrentSiteTheme;
    try (destruct (isDarkModeEnabled st) eqn:E); cbn;
    intros [Hs | Hs]; try discriminate Hs; trivial; now rewrite E.
Qed.

(** X13. Once a call has saved the settings, the user defaults hold the
    flag, the global theme and the site themes of the manager after every
    further call, whatever the calls are; so a manager that [init] creates
    from these defaults starts with exactly that flag and those themes. *)
Theorem settings_survive_restart
    (st : State) (c0 : Call) (calls : list Call)
    (view : option (list Script)) :
  saves c0 = true ->
  let st' := run (step st c0) calls in
  saved st'
  /\ init view (defaults st')
     = {| webView := view; globalTheme := globalTheme st';
          siteThemes := siteThemes st';
          isDarkModeEnabled := isDarkModeEnabled st';
          defaults := defaults st' |}.
Proof.
  intros Hs. cbv zeta.
  assert (Hsaved : saved (run (step st c0) calls)).
  { pose proof (step_saved st c0 (or_introl Hs)) as H0.
    generalize dependent (step st c0). intros st0 H0.
    revert st0 H0. induction calls as [| c calls IH]; intros st0 H0.
    - exact H0.
    - apply IH. apply step_saved. now right. }
  split; [exact Hsaved |].
  unfold init, loadSettings. cbn. unfold saved in Hsaved.
  rewrite Hsaved. reflexivity.
Qed.

End AdvancedManagerFacts.

(** * The manager of the integration guide *)

Section GuideManagerFacts.

Import DarkReaderManager.

(** X14. [updateBasedOnSystemAppearance] brings the flag in line with the
    system: afterwards [theme.enabled] is the system's dark mode flag and
    the settings of the theme are as before; when the flag already agrees
    nothing happens, so a second notification with the same appearance
    sends no script. *)
Theorem appearance_sync (isDarkMode : bool) (st : State) :
  let st' := updateBasedOnSystemAppearance isDarkMode st in
  enabled (theme st') = isDarkMode
  /\ settings (theme st') = settings (theme st)
  /\ siteSettings st' = siteSettings st
  /\ updateBasedOnSystemAppearance isDarkMode st' = st'
  /\ (enabled (theme st) = isDarkMode -> st' = st).
Proof.
  cbv zeta. unfold updateBasedOnSystemAppearance.
  destruct isDarkMode, (enabled (theme st)) eqn:E; cbn; rewrite ?E; cbn;
    repeat split; trivial; discriminate.
Qed.

(** X15. [toggleDarkMode] flips the flag and keeps the settings, so two
    toggles give the theme back.  Turning dark mode on sends
    [DarkReader.enable] twice, once from [updateTheme] and once from
    [enable]; turning it off sends [DarkReader.disable] once. *)
Theorem toggle_flips (st : State) (log : list Script) :
  webView st = Some log ->
  let json := Nook.toJSON (settings (theme st)) in
  theme (toggleDarkMode st)
  = {| enabled := negb (enabled (theme st)); settings := settings (theme st) |}
  /\ webView (toggleDarkMode st)
     = Some (log ++ if enabled (theme st) then [DarkReader_disable]
                    else [DarkReader_enable json; DarkReader_enable json])
  /\ theme (toggleDarkMode (toggleDarkMode st)) = theme st.
Proof.
  intros Hw. cbv zeta. unfold toggleDarkMode, updateTheme.
  destruct (theme st) as [e x] eqn:Et. cbn.
  destruct e; cbn; rewrite ?Hw; cbn; rewrite <- ?app_assoc; repeat split.
Qed.

(** X16. Moving the brightness slider stores the whole part of the slider's
    value as the brightness, an integer value as it is, keeps every other
    setting, and leaves dark mode enabled, also when it was disabled
    before: the handler ends with [manager.enable()]. *)
Theorem brightness_slider (value : number) (st : State) :
  let st' := brightnessSliderChanged value st in
  let x := settings (theme st) in
  enabled (theme st') = true
  /\ settings (theme st')
     = settings (withBrightness (trunc value) (theme st))
  /\ Nook.brightness (settings (theme st')) = trunc value
  /\ (forall z : Z, value = num z -> Nook.brightness (settings (theme st')) = z)
  /\ (Nook.tintColor (settings (theme st')),
      Nook.tintStrength (settings (theme st')),
      Nook.contrast (settings (theme st')))
     = (Nook.tintColor x, Nook.tintStrength x, Nook.contrast x)
  /\ (forall log, webView st = Some log ->
        let json :=
          Nook.toJSON (settings (withBrightness (trunc value) (theme st))) in
        webView st'
        = Some (log ++ if enabled (theme st)
                       then [DarkReader_enable json; DarkReader_enable json]
                       else [DarkReader_enable json])).
Proof.
  cbv zeta. unfold brightnessSliderChanged, updateTheme, enable.
  destruct (theme st) as [e x] eqn:Et. cbn. rewrite ?Et. cbn.
  destruct e; cbn; repeat split; try (intros z ->; apply trunc_num);
    intros log Hw; rewrite Hw; cbn; now rewrite <- ?app_assoc.
Qed.

(** X17. Site settings round trip: what [saveSiteSettings] stored for a
    domain, [applySiteSpecificSettings] puts back, the whole theme with its
    flag, whatever the theme has become in between; for a domain without
    stored settings and for a URL without a host both functions leave the
    manager as it is. *)
Theorem site_settings_round_trip (dom : string) (st st1 : State) :
  siteSettings st1 !! dom = siteSettings (saveSiteSettings (Some dom) st) !! dom ->
  theme (applySiteSpecificSettings (Some dom) st1) = theme st
  /\ (forall log, webView st1 = Some log ->
        webView (applySiteSpecificSettings (Some dom) st1)
        = Some (log ++ [if enabled (theme st)
                        then DarkReader_enable (Nook.toJSON (settings (theme st)))
                        else DarkReader_disable]))
  /\ (forall dom', siteSettings st1 !! dom' = None ->
        applySiteSpecificSettings (Some dom') st1 = st1)
  /\ applySiteSpecificSettings None st1 = st1
  /\ saveSiteSettings None st = st.
Proof.
  intros Hfound. cbn in Hfound. rewrite lookup_insert_eq in Hfound.
  repeat split.
  - unfold applySiteSpecificSettings. rewrite Hfound. cbn.
    destruct (theme st) as [[|] x]; reflexivity.
  - intros log Hw. unfold applySiteSpecificSettings. rewrite Hfound. cbn.
    destruct (theme st) as [[|] x]; cbn; now rewrite Hw.
  - intros dom' Hnone. unfold applySiteSpecificSettings. now rewrite Hnone.
Qed.

End GuideManagerFacts.

(** * Hex colours *)

Lemma hexDigit_range (c : Ascii.ascii) (d : Z) :
  UIColor.hexDigit c = Some d -> (0 <= d < 16)%Z.
Proof.
  unfold UIColor.hexDigit.
  repeat match goal with
         | |- context [if ?b then _ else _] => destruct b eqn:?
         end; intros [= <-]; lia.
Qed.

Lemma scanHex_range (str : string) (acc v : Z) :
  (0 <= acc)%Z -> UIColor.scanHex acc str = Some v ->
  (acc * 16 ^ Z.of_nat (String.length str) <= v
   < (acc + 1) * 16 ^ Z.of_nat (String.length str))%Z.
Proof.
  revert acc. induction str as [| c rest IH]; intros acc Hacc;
    cbn [UIColor.scanHex].
  - intros [= <-]. cbn. lia.
  - destruct (UIColor.hexDigit c) as [d |] eqn:Ed; [| discriminate].
    apply hexDigit_range in Ed. intros Hscan.
    apply IH in Hscan; [| lia].
    cbn [String.length]. rewrite Nat2Z.inj_succ, Z.pow_succ_r by lia.
    assert (0 < 16 ^ Z.of_nat (String.length rest))%Z
      by (apply Z.pow_pos_nonneg; lia).
    nia.
Qed.

Lemma land_255 (x : Z) : Z.land x 255 = (x mod 256)%Z.
Proof. change 255%Z with (Z.ones 8). now rewrite Z.land_ones by lia. Qed.

Lemma land_15 (x : Z) : Z.land x 15 = (x mod 16)%Z.
Proof. change 15%Z with (Z.ones 4). now rewrite Z.land_ones by lia. Qed.

Lemma components_range (count : nat) (int : Z) :
  (0 <= int < 16 ^ Z.of_nat count)%Z ->
  match UIColor.components count int with
  | Some (a, r, g, b) =>
      (count = 3%nat \/ count = 6%nat \/ count = 8%nat)
      /\ (0 <= a <= 255 /\ 0 <= r <= 255 /\ 0 <= g <= 255 /\ 0 <= b <= 255)%Z
      /\ (count <> 8%nat -> a = 255%Z)
  | None => count <> 3%nat /\ count <> 6%nat /\ count <> 8%nat
  end.
Proof.
  intros Hint.
  destruct count as [|[|[|[|[|[|[|[|[|count]]]]]]]]];
    cbn [UIColor.components]; try lia;
    rewrite ?land_255, ?land_15, ?Z.shiftr_div_pow2 by lia.
  - (* three digits *)
    change (16 ^ Z.of_nat 3)%Z with 4096%Z in Hint.
    change (2 ^ 8)%Z with 256%Z. change (2 ^ 4)%Z with 16%Z.
    repeat split; try lia; Z.to_euclidean_division_equations; lia.
  - (* six digits *)
    change (16 ^ Z.of_nat 6)%Z with 16777216%Z in Hint.
    change (2 ^ 8)%Z with 256%Z. change (2 ^ 16)%Z with 65536%Z.
    repeat split; try lia; Z.to_euclidean_division_equations; lia.
  - (* eight digits *)
    change (16 ^ Z.of_nat 8)%Z with 4294967296%Z in Hint.
    change (2 ^ 8)%Z with 256%Z. change (2 ^ 16)%Z with 65536%Z.
    change (2 ^ 24)%Z with 16777216%Z.
    repeat split; try lia; Z.to_euclidean_division_equations; lia.
Qed.

(** X18. For every string of hexadecimal digits, the colour components that
    [UIColor(hexString:)] cuts out of the scanned number all lie in 0..255
    when the string has 3, 6 or 8 digits, with alpha 255 for 3 and 6 digits;
    for any other length there is no colour ([nil]). *)
Theorem hex_components (str : string) (int : Z) :
  UIColor.scanHex 0 str = Some int ->
  match UIColor.components (String.length str) int with
  | Some (a, r, g, b) =>
      (String.length str = 3%nat \/ String.length str = 6%nat
       \/ String.length str = 8%nat)
      /\ (0 <= a <= 255 /\ 0 <= r <= 255 /\ 0 <= g <= 255 /\ 0 <= b <= 255)%Z
      /\ (String.length str <> 8%nat -> a = 255%Z)
  | None =>
      String.length str <> 3%nat /\ String.length str <> 6%nat
      /\ String.length str <> 8%nat
  end.
Proof.
  intros Hscan. apply components_range.
  apply scanHex_range in Hscan; lia.
Qed.

Lemma hex_components_witness :
  UIColor.scanHex 0 "FF8C42" = Some 16747586%Z
  /\ match UIColor.components 6 16747586 with
     | Some (a, r, g, b) =>
         (0 <= a <= 255 /\ 0 <= r <= 255 /\ 0 <= g <= 255 /\ 0 <= b <= 255)%Z
     | None => False
     end.
Proof.
  split; [reflexivity |].
  pose proof (hex_components "FF8C42" 16747586 eq_refl) as H.
  cbn in H. cbn. apply H.
Defined.

(** X19. A three-digit colour is the six-digit colour with every digit
    doubled: for a number below 0x1000 the components of the three-digit
    case are those of the six-digit case on [doubled]. *)
Theorem hex_three_digits (int : Z) :
  (0 <= int < 4096)%Z ->
  UIColor.components 3 int = UIColor.components 6 (UIColor.doubled int)
  /\ (0 <= UIColor.doubled int < 16777216)%Z.
Proof.
  intros Hint. unfold UIColor.components, UIColor.doubled.
  rewrite ?land_255, ?land_15, ?Z.shiftr_div_pow2 by lia.
  change (2 ^ 8)%Z with 256%Z. change (2 ^ 4)%Z with 16%Z.
  change (2 ^ 16)%Z with 65536%Z.
  assert (Ha : (0 <= int / 256 <= 15)%Z)
    by (Z.to_euclidean_division_equations; lia).
  assert (Hb : (0 <= (int / 16) mod 16 <= 15)%Z)
    by (Z.to_euclidean_division_equations; lia).
  assert (Hc : (0 <= int mod 16 <= 15)%Z)
    by (Z.to_euclidean_division_equations; lia).
  generalize dependent (int / 256)%Z. intros x Hx.
  generalize dependent ((int / 16) mod 16)%Z. intros y Hy.
  generalize dependent (int mod 16)%Z. intros z Hz.
  split; [| lia]. do 2 f_equal; [do 2 f_equal |].
  - Z.to_euclidean_division_equations; lia.
  - Z.to_euclidean_division_equations; lia.
  - Z.to_euclidean_division_equations; lia.
Qed.

Lemma hex_three_digits_witness :
  UIColor.components 3 2748 = UIColor.components 6 11189196.
Proof. apply (hex_three_digits 2748). lia. Defined.

(** * The popup: what [setConfig] touches *)

Section PopupFacts.

Variable settings_theme : Theme.
Variable customThemes : list CustomTheme.
Variable activeTab_url : string.
Variable isURLInList : string -> list string -> bool.

Local Abbreviation matches c := (isURLInList activeTab_url (url c)).

Lemma custom_first_match (l : list CustomTheme) (c : CustomTheme) :
  FilterSettings.custom l activeTab_url isURLInList = Some c ->
  exists pre post,
    l = pre ++ c :: post
    /\ Forall (fun c0 => matches c0 = false) pre
    /\ matches c = true
    /\ forall config,
         FilterSettings.update_custom activeTab_url isURLInList config l
         = pre ++ mkCustomTheme (url c) (spread (theme c) config) :: post.
Proof.
  unfold FilterSettings.custom.
  induction l as [| c0 rest IH]; [discriminate |].
  cbn [List.find FilterSettings.update_custom].
  destruct (matches c0) eqn:E.
  - intros [= ->]. exists [], rest. repeat split; trivial.
  - intros Hrest. destruct (IH Hrest) as (pre & post & -> & Hpre & Hc & Hupd).
    exists (c0 :: pre), post. repeat split; trivial.
    + now constructor.
    + intros config. cbn. now rewrite Hupd.
Qed.

Lemma custom_none (l : list CustomTheme) (config : list Assignment) :
  FilterSettings.custom l activeTab_url isURLInList = None ->
  FilterSettings.update_custom activeTab_url isURLInList config l = l.
Proof.
  unfold FilterSettings.custom.
  induction l as [| c0 rest IH]; [reflexivity |].
  cbn [List.find FilterSettings.update_custom].
  destruct (matches c0); [discriminate |]. intros H. now rewrite IH.
Qed.

(** X21. With a custom theme for the active tab, [setConfig] rewrites one
    entry of the custom themes, the first one that matches the tab: the
    entries before it (none of which matches), the entries after it and the
    URL list of the entry itself are as they were, its theme is the old one
    with the config spread over it, and no [setTheme] is sent, so the global
    theme is not touched.  Without a custom theme a [setTheme] with the
    config is sent and no custom theme would change. *)
Theorem setConfig_touches_one_entry (config : list Assignment) :
  match FilterSettings.custom customThemes activeTab_url isURLInList with
  | Some c =>
      exists pre post,
        customThemes = pre ++ c :: post
        /\ Forall (fun c0 => matches c0 = false) pre
        /\ FilterSettings.setConfig customThemes activeTab_url isURLInList config
           = changeSettings
               (pre ++ mkCustomTheme (url c) (spread (theme c) config) :: post)
  | None =>
      FilterSettings.setConfig customThemes activeTab_url isURLInList config
      = setTheme config
      /\ FilterSettings.update_custom activeTab_url isURLInList config
           customThemes = customThemes
  end.
Proof.
  unfold FilterSettings.setConfig.
  destruct (FilterSettings.custom customThemes activeTab_url isURLInList)
    as [c |] eqn:E.
  - destruct (custom_first_match customThemes c E)
      as (pre & post & Hl & Hpre & _ & Hupd).
    exists pre, post. repeat split; trivial. now rewrite Hupd.
  - split; [reflexivity | now apply custom_none].
Qed.

End PopupFacts.

(** * The popup's tint controls and the engine *)

Section PopupTintFacts.

Variable settings_theme : Theme.
Variable customThemes : list CustomTheme.
Variable activeTab_url : string.
Variable isURLInList : string -> list string -> bool.

Local Abbreviation custom_in l :=
  (FilterSettings.custom l activeTab_url isURLInList).

Local Abbreviation theme_in l :=
  (FilterSettings.active_theme settings_theme l activeTab_url isURLInList).

(** X23. Resetting the tint colour in the popup switches the tint off.  With
    a custom theme for the active tab, the reset writes the default, empty,
    tint colour into that theme and keeps its strength; after it the reset
    button is disabled, the picker shows its fallback colour #3b82f6, and
    the tint stage of the engine returns every colour as it is, whatever the
    strength and whichever [applyTint] is used.  Without a custom theme the
    reset is sent as a [setTheme] with the empty tint colour. *)
Theorem tint_reset_switches_tint_off :
  match custom_in customThemes with
  | Some c =>
      exists l,
        PopupControls.tintColor_onReset customThemes activeTab_url isURLInList
        = changeSettings l
        /\ tintColor (theme_in l) = ""%string
        /\ tintStrength (theme_in l) = tintStrength (theme_in customThemes)
        /\ PopupControls.tintColor_canReset settings_theme l activeTab_url
             isURLInList = false
        /\ PopupControls.tintColor_color settings_theme l activeTab_url
             isURLInList = "#3b82f6"%string
        /\ forall applyTint modified,
             tintStage applyTint (theme_in l) modified = modified
  | None =>
      PopupControls.tintColor_onReset customThemes activeTab_url isURLInList
      = setTheme [Set_tintColor ""]
  end.
Proof.
  unfold PopupControls.tintColor_onReset, FilterSettings.setConfig.
  destruct (custom_in customThemes) as [c |] eqn:E; [| reflexivity].
  eexists. split; [reflexivity |].
  assert (Hth :
    theme_in (FilterSettings.update_custom activeTab_url isURLInList
                [Set_tintColor PopupControls.DEFAULT_THEME_tintColor]
                customThemes)
    = spread (theme c) [Set_tintColor ""]).
  { unfold FilterSettings.active_theme.
    now rewrite (update_custom_found activeTab_url isURLInList _ _ _ E). }
  unfold PopupControls.tintColor_canReset, PopupControls.tintColor_color.
  rewrite Hth.
  assert (Hold : theme_in customThemes = theme c)
    by (unfold FilterSettings.active_theme; now rewrite E).
  rewrite Hold. destruct (theme c). cbn. repeat split.
Qed.

End PopupTintFacts.

(** * The managers and the popup run on sample data *)


Lemma flag_follows_scripts_witness :
  let st :=
    AdvancedDarkReaderManager.init (Some [])
      (AdvancedDarkReaderManager.mkUserDefaults false None None) in
  let calls :=
    [AdvancedDarkReaderManager.call_enable None;
     AdvancedDarkReaderManager.call_updateTheme
       (TintManager.apply TintManager.warm);
     AdvancedDarkReaderManager.call_disable;
     AdvancedDarkReaderManager.call_updateTheme
       (TintManager.apply TintManager.cool)] in
  exists new,
    AdvancedDarkReaderManager.webView (AdvancedDarkReaderManager.run st calls)
    = Some ([] ++ new)
    /\ last new = Some AdvancedDarkReaderManager.DarkReader_disable
    /\ AdvancedDarkReaderManager.isDarkModeEnabled
         (AdvancedDarkReaderManager.run st calls) = false.
Proof.
  intros st calls.
  destruct (flag_follows_scripts st calls [] eq_refl) as (new & Hw & Hflag).
  exists new. split; [exact Hw |].
  cbn in Hw. injection Hw as <-. split; reflexivity.
Defined.

Lemma site_theme_applied_witness :
  let st :=
    AdvancedDarkReaderManager.enable None
      (AdvancedDarkReaderManager.init (Some [])
         (AdvancedDarkReaderManager.mkUserDefaults false None None)) in
  let t := TintManager.apply TintManager.cool Nook.defaultTheme in
  let url := AdvancedDarkReaderManager.mkURL (Some "github.com"%string) in
  AdvancedDarkReaderManager.webView
    (AdvancedDarkReaderManager.setSiteTheme t url st)
  = Some ([AdvancedDarkReaderManager.DarkReader_enable
             (Nook.toJSON Nook.defaultTheme)]
          ++ [AdvancedDarkReaderManager.DarkReader_enable (Nook.toJSON t)]).
Proof.
  intros st t url.
  apply (site_theme_applied t url "github.com" st
           [AdvancedDarkReaderManager.DarkReader_enable
              (Nook.toJSON Nook.defaultTheme)]); reflexivity.
Defined.

Lemma settings_survive_restart_witness :
  let st :=
    AdvancedDarkReaderManager.init (Some [])
      (AdvancedDarkReaderManager.mkUserDefaults false None None) in
  let st' :=
    AdvancedDarkReaderManager.run
      (AdvancedDarkReaderManager.step st
         (AdvancedDarkReaderManager.call_enable None))
      [AdvancedDarkReaderManager.call_applyCurrentSiteTheme
         (AdvancedDarkReaderManager.mkURL None)] in
  AdvancedDarkReaderManager.isDarkModeEnabled
    (AdvancedDarkReaderManager.init None
       (AdvancedDarkReaderManager.defaults st')) = true.
Proof.
  intros st st'.
  destruct (settings_survive_restart st
              (AdvancedDarkReaderManager.call_enable None)
              [AdvancedDarkReaderManager.call_applyCurrentSiteTheme
                 (AdvancedDarkReaderManager.mkURL None)] None eq_refl)
    as [_ Hinit].
  fold st' in Hinit. rewrite Hinit. reflexivity.
Defined.

Lemma appearance_sync_witness :
  let st :=
    DarkReaderManager.mkState
      (DarkReaderManager.mkTheme true Nook.defaultTheme) (Some []) ∅ in
  DarkReaderManager.updateBasedOnSystemAppearance true st = st.
Proof.
  intros st.
  apply (appearance_sync true st). reflexivity.
Defined.

Lemma toggle_flips_witness :
  let st :=
    DarkReaderManager.mkState
      (DarkReaderManager.mkTheme false Nook.defaultTheme) (Some []) ∅ in
  DarkReaderManager.webView (DarkReaderManager.toggleDarkMode st)
  = Some ([] ++ [DarkReaderManager.DarkReader_enable
                   (Nook.toJSON Nook.defaultTheme);
                 DarkReaderManager.DarkReader_enable
                   (Nook.toJSON Nook.defaultTheme)]).
Proof.
  intros st. apply (toggle_flips st [] eq_refl).
Defined.

Lemma brightness_slider_witness :
  let st :=
    DarkReaderManager.mkState
      (DarkReaderManager.mkTheme false Nook.defaultTheme) (Some []) ∅ in
  Nook.brightness
    (DarkReaderManager.settings
       (DarkReaderManager.theme
          (DarkReaderManager.brightnessSliderChanged (num 175) st)))
  = 175%Z.
Proof.
  intros st.
  destruct (brightness_slider (num 175) st) as (_ & _ & _ & Hint & _).
  apply Hint. reflexivity.
Defined.

Lemma site_settings_round_trip_witness :
  let st :=
    DarkReaderManager.mkState
      (DarkReaderManager.mkTheme true
         (TintManager.apply TintManager.warm Nook.defaultTheme)) (Some []) ∅ in
  let st1 :=
    DarkReaderManager.disable
      (DarkReaderManager.saveSiteSettings (Some "github.com"%string) st) in
  DarkReaderManager.theme
    (DarkReaderManager.applySiteSpecificSettings (Some "github.com"%string) st1)
  = DarkReaderManager.theme st.
Proof.
  intros st st1.
  apply (site_settings_round_trip "github.com" st st1). reflexivity.
Defined.
